(** * Session controller of the robot-simulation backend

    Shallow embedding of the Flask backend (app.py, config_manager.py and
    simulation_runner.py): the global [simulation_runner] slot, the
    [SimulationRunner] objects it points to, the [run] generator and the
    [generate_frames] generator that turns it into a server-sent event
    stream.

    The backend is served with [threaded=True]: the worker that iterates a
    stream and the workers that serve pause/stop/start requests interleave.
    Generators are therefore modelled as resumable state machines that
    advance by micro-steps, one shared-state read per micro-step, and a
    schedule is a list of actions. *)

From stdpp Require Import base list strings.
From Stdlib Require Import ZArith Lia.

Open Scope string_scope.
Open Scope list_scope.

(** ** Python values *)

(** The values [request.json] can hand to [data.get('paused', True)]. *)
Inductive pyval :=
| PyNone
| PyBool (b : bool)
| PyInt (z : Z)
| PyStr (s : string).

(** Python truthiness, as used by [if self.paused]. *)
Definition truthy (v : pyval) : bool :=
  match v with
  | PyNone => false
  | PyBool b => b
  | PyInt z => negb (z =? 0)%Z
  | PyStr s => negb (String.eqb s "")
  end.

(** ** simulation_runner.py *)

Record SimulationRunner := mkRunner {
  paused : pyval;
  stopped : bool
}.

(** [SimulationRunner.__init__] *)
Definition new_runner : SimulationRunner :=
  {| paused := PyBool false; stopped := false |}.

(** [SimulationRunner.set_paused] *)
Definition set_paused (p : pyval) (r : SimulationRunner) : SimulationRunner :=
  {| paused := p; stopped := stopped r |}.

(** [SimulationRunner.stop] *)
Definition stop (r : SimulationRunner) : SimulationRunner :=
  {| paused := paused r; stopped := true |}.

(** The figure drawn at a step shows the text [Simulation Step: n]; it is
    identified by that [n]. *)
Definition Figure := nat.

(** The dictionaries [run] yields: [{'frame': fig, 'status': 'running'}] and
    [{'status': 'completed'}]. *)
Record frame_data := mkItem {
  item_frame : option Figure;
  item_status : string
}.

(** What resuming a generator does: go on without yielding (a micro-step
    inside the body), yield a value, return, or raise. *)
Inductive resumed (Y S : Type) :=
| Continue (s : S)
| Yield (y : Y) (s : S)
| Return
| Raise (msg : string).
Arguments Continue {Y S} s.
Arguments Yield {Y S} y s.
Arguments Return {Y S}.
Arguments Raise {Y S} msg.

(** Program points of [run]. *)
Inductive run_pc :=
| RunEntry            (* created, body not entered *)
| RunLoopHead         (* about to evaluate the [while] condition *)
| RunLoopBody         (* condition held, about to evaluate [if self.paused] *)
| RunYieldedFrame     (* suspended at [yield {'frame': ...}] *)
| RunYieldedCompleted (* suspended at [yield {'status': 'completed'}] *)
| RunExhausted.       (* returned or raised *)

Record run_gen := mkRun {
  self : nat;       (* address of the runner the generator was called on *)
  step : nat;
  pc : run_pc
}.

Definition max_steps : nat := 1000.
Definition demo_steps : nat := 100.

Definition at_pc (g : run_gen) (p : run_pc) : run_gen :=
  {| self := self g; step := step g; pc := p |}.

(** The drawing calls are library code behind an interface:
    [render_raises n] is the message of the exception they raise while
    drawing step [n], if any, and [savefig_raises fig] that of [savefig] on
    the figure. *)
Class Engine := {
  render_raises : nat -> option string;
  savefig_raises : Figure -> option string
}.

Section Backend.

Context {E : Engine}.

(** One micro-step of [SimulationRunner.run] over the heap of runners. *)
Definition run_step (heap : list SimulationRunner) (g : run_gen)
  : resumed frame_data run_gen :=
  match pc g with
  | RunEntry =>
      Continue {| self := self g; step := 0; pc := RunLoopHead |}
  | RunLoopHead =>
      match heap !! self g with
      | None => Raise "dangling runner"
      | Some r =>
          if (step g <? max_steps)%nat && negb (stopped r)
          then Continue (at_pc g RunLoopBody)
          else Return
      end
  | RunLoopBody =>
      match heap !! self g with
      | None => Raise "dangling runner"
      | Some r =>
          if truthy (paused r)
          then Continue (at_pc g RunLoopHead)       (* sleep(0.1); continue *)
          else
            match render_raises (step g) with
            | Some msg => Raise msg
            | None =>
                Yield {| item_frame := Some (step g); item_status := "running" |}
                      (at_pc g RunYieldedFrame)
            end
      end
  | RunYieldedFrame =>
      let step' := S (step g) in
      if (demo_steps <=? step')%nat
      then Yield {| item_frame := None; item_status := "completed" |}
                 {| self := self g; step := step'; pc := RunYieldedCompleted |}
      else Continue {| self := self g; step := step'; pc := RunLoopHead |}
  | RunYieldedCompleted => Return                    (* break *)
  | RunExhausted => Return
  end.

(** ** app.py *)

(** Payload of one server-sent event: [{'frame': png}], [{'status': s}] or
    [{'error': msg}]. *)
Inductive event :=
| EvFrame (fig : Figure)
| EvStatus (s : string)
| EvError (msg : string).

(** Program points of [generate_frames]. *)
Inductive gf_state :=
| GfEntry                  (* created, body not entered *)
| GfLoop (g : run_gen)     (* inside [for frame_data in ...run()] *)
| GfYieldedLast            (* suspended at the completed or the error yield *)
| GfFinished               (* returned, or closed by the server *)
| GfCrashed (msg : string) (* an exception left the generator *).

(** The body of [generate_frames] inside its [try]. *)
Definition generate_frames_try (slot : option nat)
    (heap : list SimulationRunner) (st : gf_state) : resumed event gf_state :=
  match st with
  | GfEntry =>
      match slot with
      | None => Raise "'NoneType' object has no attribute 'run'"
      | Some a => Continue (GfLoop {| self := a; step := 0; pc := RunEntry |})
      end
  | GfLoop g =>
      match run_step heap g with
      | Continue g' => Continue (GfLoop g')
      | Yield it g' =>
          if String.eqb (item_status it) "completed"
          then Yield (EvStatus "completed") GfYieldedLast
          else
            match item_frame it with
            | None => Raise "'frame'"
            | Some fig =>
                match savefig_raises fig with
                | Some msg => Raise msg
                | None => Yield (EvFrame fig) (GfLoop g')
                end
            end
      | Return => Return
      | Raise msg => Raise msg
      end
  | GfYieldedLast => Return
  | GfFinished => Return
  | GfCrashed _ => Return
  end.

(** [except Exception as e: yield {'error': str(e)}] *)
Definition except_Exception (r : resumed event gf_state) : resumed event gf_state :=
  match r with
  | Raise msg => Yield (EvError msg) GfYieldedLast
  | other => other
  end.

(** One micro-step of [generate_frames]. Once the generator has left its
    [try] nothing is caught any more. *)
Definition generate_frames_step (slot : option nat)
    (heap : list SimulationRunner) (st : gf_state) : resumed event gf_state :=
  match st with
  | GfEntry | GfLoop _ => except_Exception (generate_frames_try slot heap st)
  | _ => generate_frames_try slot heap st
  end.

(** ** config_manager.py *)

Record position := mkPos { pos_x : Z; pos_y : Z }.

(** One entry of [config['robots']]; [robot_id] is the [i] of
    ['robot_{i}'], and [max_speed] and [sensor_range] are the constants
    1.0 and 50. *)
Record robot := mkRobot {
  robot_id : nat;
  start_position : position;
  goals : list position
}.

Record Config := mkConfig {
  world_map : option string;
  robots : list robot
}.

(** [ConfigManager.ensure_config_exists] *)
Definition default_config : Config :=
  {| world_map := None; robots := [] |}.

Inductive result (A : Type) :=
| Ok (a : A)
| Err (msg : string).
Arguments Ok {A} a.
Arguments Err {A} msg.

(** [ConfigManager.update_config]; [range] of a count below one is empty,
    and [robot_position['x']] raises when the position is [None]. *)
Definition update_config (map_name : option string) (robot_count : Z)
    (robot_position : option position) (survivor_positions : list position)
  : result Config :=
  match Z.to_nat robot_count, robot_position with
  | O, _ => Ok {| world_map := map_name; robots := [] |}
  | S _ as n, None => Err "'NoneType' object is not subscriptable"
  | S _ as n, Some p =>
      Ok {| world_map := map_name;
            robots := map (fun i => {| robot_id := i; start_position := p;
                                       goals := survivor_positions |})
                          (seq 0 n) |}
  end.

(** ** app.py: the request handlers *)

(** Body of a start request. *)
Record StartRequest := mkStart {
  map_name : option string;
  robot_count : option Z;
  robot_position : option position;
  survivors : option (list position)
}.

(** Body of a pause request. *)
Record PauseRequest := mkPause {
  req_paused : option pyval
}.

Inductive response :=
| EventStream (i : nat)                  (* 200: the body is stream [i] *)
| Json (code : nat) (key value : string) (* [jsonify({key: value}), code] *)
| InternalServerError (msg : string).    (* an exception left the view *)

(** A response body being streamed: the generator and what it has sent. *)
Record Stream := mkStream {
  gf : gf_state;
  sent : list event
}.

(** The process: the configuration file, the runner objects, the global
    [simulation_runner] (an address, or [None]) and the open streams. *)
Record World := mkWorld {
  config : Config;
  heap : list SimulationRunner;
  simulation_runner : option nat;
  streams : list Stream
}.

Definition initial_world : World :=
  {| config := default_config; heap := []; simulation_runner := None;
     streams := [] |}.

Definition start_simulation (data : StartRequest) (w : World)
  : response * World :=
  match update_config (map_name data) (default 1%Z (robot_count data))
          (robot_position data) (default [] (survivors data)) with
  | Err msg => (InternalServerError msg, w)
  | Ok cfg =>
      match map_name data with
      | None =>   (* os.path.join(MAPS_DIR, None) *)
          (InternalServerError "expected str, bytes or os.PathLike object, not NoneType",
           {| config := cfg; heap := heap w;
              simulation_runner := simulation_runner w; streams := streams w |})
      | Some _ =>
          (EventStream (length (streams w)),
           {| config := cfg;
              heap := heap w ++ [new_runner];
              simulation_runner := Some (length (heap w));
              streams := streams w ++ [{| gf := GfEntry; sent := [] |}] |})
      end
  end.

Definition no_active_simulation : response :=
  Json 400 "error" "No active simulation".

Definition pause_simulation (data : PauseRequest) (w : World)
  : response * World :=
  let p := default (PyBool true) (req_paused data) in
  match simulation_runner w with
  | Some a =>
      (Json 200 "status" (if truthy p then "paused" else "resumed"),
       {| config := config w; heap := alter (set_paused p) a (heap w);
          simulation_runner := simulation_runner w; streams := streams w |})
  | None => (no_active_simulation, w)
  end.

Definition stop_simulation (w : World) : response * World :=
  match simulation_runner w with
  | Some a =>
      (Json 200 "status" "stopped",
       {| config := config w; heap := alter stop a (heap w);
          simulation_runner := None; streams := streams w |})
  | None => (no_active_simulation, w)
  end.

(** ** The worker that iterates a stream *)

Definition set_stream (i : nat) (s : Stream) (w : World) : World :=
  {| config := config w; heap := heap w;
     simulation_runner := simulation_runner w;
     streams := <[i := s]> (streams w) |}.

(** The server resumes a stream for one micro-step and sends what it
    yields; a generator that returned or raised is not resumed again. *)
Definition resume (slot : option nat) (heap : list SimulationRunner)
    (s : Stream) : Stream :=
  match gf s with
  | GfFinished | GfCrashed _ => s
  | st =>
      match generate_frames_step slot heap st with
      | Continue st' => {| gf := st'; sent := sent s |}
      | Yield ev st' => {| gf := st'; sent := sent s ++ [ev] |}
      | Return => {| gf := GfFinished; sent := sent s |}
      | Raise msg => {| gf := GfCrashed msg; sent := sent s |}
      end
  end.

Definition tick (i : nat) (w : World) : World :=
  match streams w !! i with
  | None => w
  | Some s => set_stream i (resume (simulation_runner w) (heap w) s) w
  end.

(** Where a generator can be closed from outside: before its first
    resumption and at a yield. *)
Definition suspended (st : gf_state) : bool :=
  match st with
  | GfEntry | GfYieldedLast => true
  | GfLoop g => match pc g with RunYieldedFrame => true | _ => false end
  | GfFinished | GfCrashed _ => false
  end.

(** The consumer of stream [i] goes away: the server closes the generator
    at its suspension point; [GeneratorExit] is not an [Exception], so the
    handler of [generate_frames] does not run. *)
Definition close (s : Stream) : Stream :=
  if suspended (gf s) then {| gf := GfFinished; sent := sent s |} else s.

Definition disconnect (i : nat) (w : World) : World :=
  match streams w !! i with
  | None => w
  | Some s => set_stream i (close s) w
  end.

(** ** Schedules *)

Inductive action :=
| Start (data : StartRequest)
| Pause (data : PauseRequest)
| Stop
| Tick (i : nat)
| Disconnect (i : nat).

Definition exec (a : action) (w : World) : World :=
  match a with
  | Start data => snd (start_simulation data w)
  | Pause data => snd (pause_simulation data w)
  | Stop => snd (stop_simulation w)
  | Tick i => tick i w
  | Disconnect i => disconnect i w
  end.

Definition run_schedule (acts : list action) (w : World) : World :=
  fold_left (fun w a => exec a w) acts w.

(** [n] consecutive micro-steps of stream [i]. *)
Definition ticks (i n : nat) : list action := replicate n (Tick i).

(** [n] consecutive micro-steps of one stream over a fixed heap and slot. *)
Fixpoint resumes (n : nat) (slot : option nat) (heap : list SimulationRunner)
    (s : Stream) : Stream :=
  match n with
  | O => s
  | S n' => resumes n' slot heap (resume slot heap s)
  end.

End Backend.

(** An engine whose calls never raise. *)
Definition quiet_engine : Engine :=
  {| render_raises := fun _ => None; savefig_raises := fun _ => None |}.

(** An engine whose drawing raises at one step. *)
Definition failing_engine (n : nat) (msg : string) : Engine :=
  {| render_raises := fun k => if (k =? n)%nat then Some msg else None;
     savefig_raises := fun _ => None |}.

(** ** Vocabulary of the properties *)

(** A start request the handler accepts: it names a map, and gives a robot
    position unless it asks for no robot. *)
Definition valid_config (data : StartRequest) : bool :=
  match map_name data with
  | None => false
  | Some _ =>
      match Z.to_nat (default 1%Z (robot_count data)), robot_position data with
      | S _, None => false
      | _, _ => true
      end
  end.

(** The configuration of the README's example: one robot, no goals. *)
Definition demo_request : StartRequest :=
  {| map_name := Some "hm3d_1.png"; robot_count := Some 1%Z;
     robot_position := Some {| pos_x := 400; pos_y := 300 |};
     survivors := Some [] |}.

(** A request was refused: the answer is not a 200. *)
Definition refused (r : response) : bool :=
  match r with
  | EventStream _ => false
  | Json code _ _ => negb (code =? 200)%nat
  | InternalServerError _ => true
  end.

(** The steps shown by the frame events of a stream, in order. *)
Definition frames_of (evs : list event) : list Figure :=
  omap (fun ev => match ev with EvFrame fig => Some fig | _ => None end) evs.

(** The markers that end a stream. *)
Definition terminal (ev : event) : bool :=
  match ev with
  | EvFrame _ => false
  | EvStatus s => String.eqb s "completed" || String.eqb s "stopped"
  | EvError _ => true
  end.

(** The slot holds a runner that was not stopped and a stream is inside
    its loop. *)
Definition session_running (w : World) : Prop :=
  exists a r i s g,
    simulation_runner w = Some a /\ heap w !! a = Some r /\ stopped r = false /\
    streams w !! i = Some s /\ gf s = GfLoop g /\ self g = a.

(** The step index the next frame of a generator will carry. *)
Definition next_index (g : run_gen) : nat :=
  match pc g with
  | RunEntry => 0
  | RunYieldedFrame => S (step g)
  | _ => step g
  end.

(** The reading of C1: a start request that finds a running session is
    refused and leaves the slot alone. *)
Definition start_refused_when_running (data : StartRequest) (w : World) : Prop :=
  session_running w ->
  refused (fst (start_simulation data w)) = true /\
  simulation_runner (snd (start_simulation data w)) = simulation_runner w.

(** A session four micro-steps into its first frame. *)
Definition running_world : World :=
  run_schedule (E := quiet_engine) (Start demo_request :: ticks 0 4) initial_world.

(** A session run to its end: 100 frames, the completed event, the
    generator returned. *)
Definition completed_world : World :=
  run_schedule (E := quiet_engine) (Start demo_request :: ticks 0 303) initial_world.

(** The reading of C5 for a completed session: the stop request is
    refused. *)
Definition stop_refused_after_completion (w : World) : Prop :=
  (exists s, streams w !! 0 = Some s /\ gf s = GfFinished /\
             last (sent s) = Some (EvStatus "completed")) ->
  fst (stop_simulation w) = no_active_simulation.

(** The reading of C6 for completion: once the stream has ended with the
    completed event the slot is empty. *)
Definition slot_cleared_on_completion (w : World) : Prop :=
  (exists s, streams w !! 0 = Some s /\ gf s = GfFinished /\
             last (sent s) = Some (EvStatus "completed")) ->
  simulation_runner w = None.

(** What a stream has sent: the frames of steps [0 .. k-1] in order, then
    nothing, or the completed event, or one error event. While the
    generator is in its loop [k] is the index of its next frame. *)
Definition stream_shape (s : Stream) : Prop :=
  exists k tl,
    sent s = map EvFrame (seq 0 k) ++ tl /\
    match gf s with
    | GfEntry => k = 0 /\ tl = []
    | GfLoop g => k = next_index g /\ tl = []
    | GfYieldedLast => tl = [EvStatus "completed"] \/ exists msg, tl = [EvError msg]
    | GfFinished =>
        tl = [] \/ tl = [EvStatus "completed"] \/ exists msg, tl = [EvError msg]
    | GfCrashed _ => False
    end.

Definition fresh_stream : Stream := {| gf := GfEntry; sent := [] |}.

Definition shaped (w : World) : Prop :=
  forall i s, streams w !! i = Some s -> stream_shape s.

(** The stream has sent its last event or its generator has returned. *)
Definition ended (s : Stream) : Prop :=
  gf s = GfYieldedLast \/ gf s = GfFinished.

(** A session whose drawing raises at step 2, two frames in. *)
Definition failing_world : World :=
  run_schedule (E := failing_engine 2 "render failed")
    (Start demo_request :: ticks 0 9) initial_world.

(** The stream is iterating the [run] generator of runner [a], or is
    past it. *)
Definition runs_on (a : nat) (s : Stream) : Prop :=
  match gf s with
  | GfLoop g => self g = a
  | GfYieldedLast | GfFinished => True
  | GfEntry | GfCrashed _ => False
  end.

(** The loop iteration in progress has passed the [while] condition and
    has not drawn its frame yet. *)
Definition in_iteration (st : gf_state) : nat :=
  match st with
  | GfLoop g => match pc g with RunLoopBody => 1 | _ => 0 end
  | _ => 0
  end.

(** Micro-steps a stream needs at most to return once its runner is
    stopped. *)
Definition steps_left (st : gf_state) : nat :=
  match st with
  | GfLoop g =>
      match pc g with
      | RunLoopBody => 3
      | RunEntry | RunYieldedFrame => 2
      | _ => 1
      end
  | GfEntry => 3
  | GfYieldedLast => 1
  | GfFinished | GfCrashed _ => 0
  end.

Definition frame_count (s : Stream) : nat := length (frames_of (sent s)).

Definition stopped_at (heap : list SimulationRunner) (a : nat) : Prop :=
  exists r, heap !! a = Some r /\ stopped r = true.

(** A session stopped inside its first loop iteration. *)
Definition stopped_world : World :=
  run_schedule (E := quiet_engine)
    (Start demo_request :: ticks 0 3 ++ [Stop]) initial_world.

(** The reading of C2: a stream whose generator returned has a terminal
    marker as its last event. *)
Definition ends_with_terminal_marker (w : World) (i : nat) : Prop :=
  forall s, streams w !! i = Some s -> gf s = GfFinished ->
    exists ev, last (sent s) = Some ev /\ terminal ev = true.

(** A session stopped after its first frame, and iterated until its
    generator returned. *)
Definition stopped_stream_world : World :=
  run_schedule (E := quiet_engine)
    (Start demo_request :: ticks 0 4 ++ Stop :: ticks 0 2) initial_world.

(** The program points a generator inside [generate_frames]'s loop can
    be at. *)
Definition in_loop (p : run_pc) : bool :=
  match p with
  | RunEntry | RunLoopHead | RunLoopBody | RunYieldedFrame => true
  | RunYieldedCompleted | RunExhausted => false
  end.


Definition pause_request : PauseRequest := {| req_paused := Some (PyBool true) |}.

Arguments Ok {A} a.
Arguments Err {A} msg.

(** The slot holds the address of a runner that exists and is not
    stopped, and every generator in its loop runs on a runner that
    exists. *)
Definition well_formed (w : World) : Prop :=
  (forall a, simulation_runner w = Some a ->
     exists r, heap w !! a = Some r /\ stopped r = false) /\
  (forall i s g, streams w !! i = Some s -> gf s = GfLoop g ->
     self g < length (heap w)).

(** The stream has sent at most [demo_steps] frames, and none before its
    generator is entered; a generator in its loop is at one of the loop's
    program points, has sent the frames below its next index, and its step
    counter is below [demo_steps] once the body was entered. *)
Definition capped (s : Stream) : Prop :=
  frame_count s <= demo_steps /\
  (gf s = GfEntry -> frame_count s = 0) /\
  forall g, gf s = GfLoop g ->
    in_loop (pc g) = true /\ frame_count s = next_index g /\
    (pc g = RunEntry \/ step g < demo_steps).

(** ** The page: Index.tsx and its components

    The state of the [Index] component, together with the [mode] state of
    [SimulationCanvas]; each handler is the state update it performs, an
    asynchronous handler one update per resumption. A handler reads the
    state of the render it was created in. Drawing on the canvas is left
    out. *)

Module Index.

Inductive Status :=
| idle | loading | ready | simulating | paused | completed | error.

Inductive Mode := robot | survivor.

(** MapSelector.tsx *)
Definition AVAILABLE_MAPS : list string :=
  ["hm3d_1.png"; "hm3d_2.png"; "hm3d_3.png"; "hm3d_4.png"; "hm3d_5.png";
   "hm3d_6.png"; "hm3d_7.png"; "hm3d_8.png"; "hm3d_9.png"; "cave.png"].

(** RobotControls.tsx: [Array.from({ length: 10 }, (_, i) => i + 1)] *)
Definition robot_options : list nat := map (fun i => i + 1) (seq 0 10).

Section Page.

(** A canvas position [{x, y}] of JavaScript numbers, and the position
    the backend reads from its JSON form. *)
Context {Pos : Type} (json_position : Pos -> position).

Record State := mkState {
  selectedMap : string;
  mapUrl : option string;
  robotCount : nat;
  robotPosition : option Pos;
  survivors : list Pos;
  status : Status;
  simulationFrame : option Figure;
  isPaused : bool;
  mode : Mode
}.

Definition initial : State :=
  {| selectedMap := ""; mapUrl := None; robotCount := 1;
     robotPosition := None; survivors := []; status := idle;
     simulationFrame := None; isPaused := false; mode := robot |}.

(** [status === 'simulating' || status === 'paused'] *)
Definition isSimulating (st : State) : bool :=
  match status st with simulating | paused => true | _ => false end.

(** [status === 'idle' || status === 'loading'] *)
Definition disabled (st : State) : bool :=
  match status st with idle | loading => true | _ => false end.

Definition hasRobotPosition (st : State) : bool :=
  match robotPosition st with Some _ => true | None => false end.

(** [handleMapSelect], up to its [await]. *)
Definition handleMapSelect (mapName : string) (st : State) : State :=
  {| selectedMap := mapName; mapUrl := mapUrl st; robotCount := robotCount st;
     robotPosition := None; survivors := []; status := loading;
     simulationFrame := None; isPaused := isPaused st; mode := mode st |}.

(** [handleMapSelect], the map was fetched. *)
Definition handleMapSelect_loaded (url : string) (st : State) : State :=
  {| selectedMap := selectedMap st; mapUrl := Some url;
     robotCount := robotCount st; robotPosition := robotPosition st;
     survivors := survivors st; status := ready;
     simulationFrame := simulationFrame st; isPaused := isPaused st;
     mode := mode st |}.

Definition set_status (x : Status) (st : State) : State :=
  {| selectedMap := selectedMap st; mapUrl := mapUrl st;
     robotCount := robotCount st; robotPosition := robotPosition st;
     survivors := survivors st; status := x;
     simulationFrame := simulationFrame st; isPaused := isPaused st;
     mode := mode st |}.

(** [handleMapSelect], its [catch]. *)
Definition handleMapSelect_failed (st : State) : State := set_status error st.

Definition setMode (m : Mode) (st : State) : State :=
  {| selectedMap := selectedMap st; mapUrl := mapUrl st;
     robotCount := robotCount st; robotPosition := robotPosition st;
     survivors := survivors st; status := status st;
     simulationFrame := simulationFrame st; isPaused := isPaused st;
     mode := m |}.

Definition setSurvivors (l : list Pos) (st : State) : State :=
  {| selectedMap := selectedMap st; mapUrl := mapUrl st;
     robotCount := robotCount st; robotPosition := robotPosition st;
     survivors := l; status := status st;
     simulationFrame := simulationFrame st; isPaused := isPaused st;
     mode := mode st |}.

(** [handleCanvasClick] of SimulationCanvas.tsx, at the position computed
    from the mouse event; [onRobotPositionSet] is [setRobotPosition] and
    [onSurvivorAdd] appends to the survivors. *)
Definition handleCanvasClick (pos : Pos) (st : State) : State :=
  if disabled st || isSimulating st then st
  else
    match mode st, robotPosition st with
    | robot, None =>
        {| selectedMap := selectedMap st; mapUrl := mapUrl st;
           robotCount := robotCount st; robotPosition := Some pos;
           survivors := survivors st; status := status st;
           simulationFrame := simulationFrame st; isPaused := isPaused st;
           mode := survivor |}
    | robot, Some _ => st
    | survivor, _ =>
        if (length (survivors st) <? 15)%nat
        then setSurvivors (survivors st ++ [pos]) st
        else st
    end.

(** [onSurvivorRemove]: [survivors.filter((_, i) => i !== index)] *)
Definition onSurvivorRemove (index : nat) (l : list Pos) : list Pos :=
  omap (fun '(i, x) => if (i =? index)%nat then None else Some x)
       (zip (seq 0 (length l)) l).

(** [handleStartSimulation], up to its [fetch]: the body of the request as
    the backend reads it, if one is sent, and the state. *)
Definition handleStartSimulation (st : State) : option StartRequest * State :=
  match robotPosition st with
  | None => (None, st)
  | Some p =>
      (Some (mkStart (Some (selectedMap st)) (Some (Z.of_nat (robotCount st)))
               (Some (json_position p))
               (Some (map json_position (survivors st)))),
       {| selectedMap := selectedMap st; mapUrl := mapUrl st;
          robotCount := robotCount st; robotPosition := robotPosition st;
          survivors := survivors st; status := simulating;
          simulationFrame := simulationFrame st; isPaused := false;
          mode := mode st |})
  end.

(** [handleStartSimulation], one [data:] line of the response; the
    boolean tells that the handler returned. A frame is a non-empty
    string, so [data.frame] is truthy for a frame event only. *)
Definition on_data (ev : event) (st : State) : State * bool :=
  match ev with
  | EvFrame fig =>
      ({| selectedMap := selectedMap st; mapUrl := mapUrl st;
          robotCount := robotCount st; robotPosition := robotPosition st;
          survivors := survivors st; status := status st;
          simulationFrame := Some fig; isPaused := isPaused st;
          mode := mode st |}, false)
  | EvStatus s =>
      if String.eqb s "completed" then (set_status completed st, true)
      else (st, false)
  | EvError _ => (st, false)
  end.

(** [handleStartSimulation] reading the events of a response, with no
    other handler in between. *)
Fixpoint read_stream (evs : list event) (st : State) : State :=
  match evs with
  | [] => st
  | ev :: evs' =>
      let '(st', returned) := on_data ev st in
      if returned then st' else read_stream evs' st'
  end.

(** [handlePauseSimulation]: the body it sends. *)
Definition handlePauseSimulation_request (st : State) : PauseRequest :=
  {| req_paused := Some (PyBool (negb (isPaused st))) |}.

(** [handlePauseSimulation] after its [fetch], which resolves whatever
    the status of the answer; [captured] is the [isPaused] the handler was
    created with. *)
Definition handlePauseSimulation_done (captured : bool) (st : State) : State :=
  {| selectedMap := selectedMap st; mapUrl := mapUrl st;
     robotCount := robotCount st; robotPosition := robotPosition st;
     survivors := survivors st;
     status := if captured then simulating else paused;
     simulationFrame := simulationFrame st; isPaused := negb captured;
     mode := mode st |}.

(** [handleStopSimulation] after its [fetch]. *)
Definition handleStopSimulation_done (st : State) : State :=
  {| selectedMap := selectedMap st; mapUrl := mapUrl st;
     robotCount := robotCount st; robotPosition := robotPosition st;
     survivors := survivors st; status := ready;
     simulationFrame := None; isPaused := false; mode := mode st |}.

(** What can happen to the page. A control that is disabled or not
    rendered fires nothing; the resumptions of the asynchronous handlers
    may come at any time. *)
Inductive ui_event :=
| SelectMap (mapName : string)
| MapLoaded (url : string)
| MapFailed
| ClickCanvas (pos : Pos)
| ClickSetRobotStart
| ClickPlaceSurvivors
| SelectRobotCount (n : nat)
| ClickStart
| StartFailed
| StreamData (ev : event)
| PauseResolved (captured : bool)
| StopResolved.

Definition ui_step (e : ui_event) (st : State) : State :=
  match e with
  | SelectMap mapName =>
      match status st with
      | simulating => st
      | _ => if bool_decide (mapName ∈ AVAILABLE_MAPS)
             then handleMapSelect mapName st else st
      end
  | MapLoaded url => handleMapSelect_loaded url st
  | MapFailed => handleMapSelect_failed st
  | ClickCanvas pos => handleCanvasClick pos st
  | ClickSetRobotStart =>
      if hasRobotPosition st || disabled st || isSimulating st then st
      else setMode robot st
  | ClickPlaceSurvivors =>
      if negb (hasRobotPosition st) || disabled st || isSimulating st
         || (15 <=? length (survivors st))%nat
      then st else setMode survivor st
  | SelectRobotCount n =>
      if disabled st || isSimulating st then st
      else if bool_decide (n ∈ robot_options)
           then {| selectedMap := selectedMap st; mapUrl := mapUrl st;
                   robotCount := n; robotPosition := robotPosition st;
                   survivors := survivors st; status := status st;
                   simulationFrame := simulationFrame st;
                   isPaused := isPaused st; mode := mode st |}
           else st
  | ClickStart =>
      if isSimulating st || negb (hasRobotPosition st) || disabled st then st
      else snd (handleStartSimulation st)
  | StartFailed => set_status error st
  | StreamData ev => fst (on_data ev st)
  | PauseResolved captured => handlePauseSimulation_done captured st
  | StopResolved => handleStopSimulation_done st
  end.

Definition ui_run (evs : list ui_event) (st : State) : State :=
  fold_left (fun st e => ui_step e st) evs st.

Definition is_select_map (e : ui_event) : bool :=
  match e with SelectMap _ => true | _ => false end.

(** What the page keeps true of its state. *)
Definition page_inv (st : State) : Prop :=
  length (survivors st) <= 15 /\
  1 <= robotCount st <= 10 /\
  (mode st = robot -> robotPosition st = None) /\
  (disabled st = true -> robotPosition st = None /\ survivors st = []).

End Page.

End Index.

(** One pause click served by the backend before anything else happens:
    the request is built from the state, handled, and the handler is
    resumed. *)
Definition pause_click {Pos : Type} (x : @Index.State Pos * World)
  : @Index.State Pos * World :=
  (Index.handlePauseSimulation_done (Index.isPaused (fst x)) (fst x),
   snd (pause_simulation (Index.handlePauseSimulation_request (fst x)) (snd x))).

(** ** The event stream on the wire

    [generate_frames] writes each event as [data: <json>] followed by two
    newlines; [handleStartSimulation] reads the response in chunks, keeps
    the unfinished line in [buffer] and handles the complete lines. *)

Definition newline : Ascii.ascii := Ascii.ascii_of_nat 10.

(** JavaScript's [s.split('\n')] *)
Fixpoint split_lines (s : string) : list string :=
  match s with
  | EmptyString => [EmptyString]
  | String c s' =>
      if Ascii.eqb c newline then EmptyString :: split_lines s'
      else
        match split_lines s' with
        | h :: t => String c h :: t
        | [] => [String c EmptyString]
        end
  end.

(** One turn of the reading loop: [buffer += chunk], split, and
    [buffer = lines.pop() || '']. The lines to handle and the new
    buffer. *)
Definition read_chunk (buffer chunk : string) : list string * string :=
  let lines := split_lines (buffer +:+ chunk) in
  (removelast lines, List.last lines EmptyString).

(** The lines handled over a sequence of chunks, and the buffer left. *)
Fixpoint read_chunks (chunks : list string) (buffer : string)
  : list string * string :=
  match chunks with
  | [] => ([], buffer)
  | chunk :: rest =>
      let '(lines, buffer') := read_chunk buffer chunk in
      let '(lines', buffer'') := read_chunks rest buffer' in
      (lines ++ lines', buffer'')
  end.

Fixpoint no_newline (s : string) : bool :=
  match s with
  | EmptyString => true
  | String c s' => negb (Ascii.eqb c newline) && no_newline s'
  end.

(** [f"data: {json.dumps(...)}\n\n"], for the JSON text [dumps ev] *)
Definition sse_event (dumps : event -> string) (ev : event) : string :=
  "data: " +:+ dumps ev +:+ String newline (String newline EmptyString).

(** How the handling of some lines ended: all handled, the handler
    returned (on the completed event), or [JSON.parse] threw. *)
Inductive handled := Going | Returned | Threw.

(** [for (const line of lines)]: a line that starts with [data: ] is parsed
    from its seventh character on and handled by [on_data]; any other line
    is skipped. *)
Fixpoint handle_lines {Pos : Type} (parse : string -> option event)
    (lines : list string) (st : @Index.State Pos)
  : @Index.State Pos * handled :=
  match lines with
  | [] => (st, Going)
  | line :: rest =>
      if String.prefix "data: " line
      then
        match parse (String.substring 6 (String.length line - 6) line) with
        | None => (st, Threw)
        | Some ev =>
            let '(st', returned) := Index.on_data ev st in
            if returned then (st', Returned) else handle_lines parse rest st'
        end
      else handle_lines parse rest st
  end.

(** The reading loop of [handleStartSimulation] over the chunks of a
    response, to the end of the response; an exception ends in the
    handler's [catch], which sets the status to error. *)
Fixpoint read_response {Pos : Type} (parse : string -> option event)
    (chunks : list string) (buffer : string) (st : @Index.State Pos)
  : @Index.State Pos :=
  match chunks with
  | [] => st
  | chunk :: rest =>
      let '(lines, buffer') := read_chunk buffer chunk in
      match handle_lines parse lines st with
      | (st', Going) => read_response parse rest buffer' st'
      | (st', Returned) => st'
      | (st', Threw) => Index.set_status Index.error st'
      end
  end.

(** Two start requests: the first runner is out of the slot. *)
Definition replaced_world : World :=
  run_schedule (E := quiet_engine)
    [Start demo_request; Tick 0; Start demo_request] initial_world.

(** A page on which a map was loaded, the robot placed and one survivor
    added, with canvas positions being backend positions. *)
Definition placed_page : @Index.State position :=
  Index.ui_run (fun p => p)
    [Index.SelectMap "cave.png"; Index.MapLoaded "blob:map";
     Index.ClickCanvas {| pos_x := 400; pos_y := 300 |};
     Index.ClickCanvas {| pos_x := 100; pos_y := 150 |}]
    Index.initial.

(** A stand-in for the JSON codec on two events, for an example. *)
Definition sample_dumps (ev : event) : string :=
  match ev with
  | EvFrame _ => "{frame}"
  | EvStatus _ => "{completed}"
  | EvError _ => "{error}"
  end.

Definition sample_parse (s : string) : option event :=
  if String.eqb s "{frame}" then Some (EvFrame 0)
  else if String.eqb s "{completed}" then Some (EvStatus "completed")
  else None.

(** A response of two events cut in the middle of its lines. *)
Definition sample_chunks : list string :=
  ["data: {fra";
   "me}" +:+ String newline (String newline "data: {comp");
   "leted}" +:+ String newline "";
   String newline ""].

(** The micro-steps of stream [i] in a schedule, and whether the schedule
    keeps its consumer connected. *)
Definition is_tick (i : nat) (act : action) : bool :=
  match act with Tick j => (j =? i)%nat | _ => false end.

Definition is_disconnect (i : nat) (act : action) : bool :=
  match act with Disconnect j => (j =? i)%nat | _ => false end.

Fixpoint count_ticks (i : nat) (acts : list action) : nat :=
  match acts with
  | [] => 0
  | act :: rest => (if is_tick i act then 1 else 0) + count_ticks i rest
  end.


Definition is_stop (act : action) : bool :=
  match act with Stop => true | _ => false end.

(** An engine whose [savefig] raises on the figure of one step. *)
Definition savefig_failing_engine (n : nat) (msg : string) : Engine :=
  {| render_raises := fun _ => None;
     savefig_raises := fun fig => if (fig =? n)%nat then Some msg else None |}.

(** A session whose second figure cannot be saved, one frame in. *)
Definition savefig_failing_world : World :=
  run_schedule (E := savefig_failing_engine 1 "savefig failed")
    (Start demo_request :: ticks 0 6) initial_world.




(** ** Basic facts about the handlers and the worker *)

Section Handlers.

Context {E : Engine}.

Lemma run_schedule_app (acts1 acts2 : list action) (w : World) :
  run_schedule (acts1 ++ acts2) w = run_schedule acts2 (run_schedule acts1 w).
Proof. unfold run_schedule. apply fold_left_app. Qed.

Lemma run_schedule_cons (a : action) (acts : list action) (w : World) :
  run_schedule (a :: acts) w = run_schedule acts (exec a w).
Proof. reflexivity. Qed.

Lemma tick_frame (i : nat) (w : World) :
  config (tick i w) = config w /\ heap (tick i w) = heap w /\
  simulation_runner (tick i w) = simulation_runner w.
Proof. unfold tick. destruct (streams w !! i); auto. Qed.

Lemma disconnect_frame (i : nat) (w : World) :
  config (disconnect i w) = config w /\ heap (disconnect i w) = heap w /\
  simulation_runner (disconnect i w) = simulation_runner w.
Proof. unfold disconnect. destruct (streams w !! i); auto. Qed.

Lemma set_stream_lookup (i : nat) (s s0 : Stream) (w : World) :
  streams w !! i = Some s0 -> streams (set_stream i s w) !! i = Some s.
Proof.
  intros Hi. simpl. apply list_lookup_insert_eq.
  eapply lookup_lt_Some; eauto.
Qed.

Lemma set_stream_lookup_ne (i j : nat) (s : Stream) (w : World) :
  i <> j -> streams (set_stream i s w) !! j = streams w !! j.
Proof. intros Hne. simpl. by apply list_lookup_insert_ne. Qed.

Lemma set_stream_twice (i : nat) (s s' : Stream) (w : World) :
  set_stream i s' (set_stream i s w) = set_stream i s' w.
Proof. unfold set_stream. simpl. by rewrite list_insert_insert_eq. Qed.

Lemma set_stream_same (i : nat) (s : Stream) (w : World) :
  streams w !! i = Some s -> set_stream i s w = w.
Proof.
  intros Hi. destruct w as [c h sl ss]. unfold set_stream. simpl in *.
  by rewrite list_insert_id.
Qed.

Lemma tick_lookup (i : nat) (s : Stream) (w : World) :
  streams w !! i = Some s ->
  tick i w = set_stream i (resume (simulation_runner w) (heap w) s) w.
Proof. intros Hi. unfold tick. by rewrite Hi. Qed.

(** A run of micro-steps of one stream only touches that stream. *)
Lemma ticks_resumes (n i : nat) (s : Stream) (w : World) :
  streams w !! i = Some s ->
  run_schedule (ticks i n) w
  = set_stream i (resumes n (simulation_runner w) (heap w) s) w.
Proof.
  revert s w. induction n as [|n IH]; intros s w Hi.
  - simpl. symmetry. by apply set_stream_same.
  - unfold ticks. simpl replicate. rewrite run_schedule_cons. simpl exec.
    rewrite (tick_lookup _ _ _ Hi).
    fold (ticks i n).
    rewrite (IH (resume (simulation_runner w) (heap w) s)).
    + simpl. by rewrite set_stream_twice.
    + by eapply set_stream_lookup.
Qed.

Lemma valid_config_accepted (data : StartRequest) (w : World) :
  valid_config data = true ->
  exists cfg,
    start_simulation data w
    = (EventStream (length (streams w)),
       {| config := cfg; heap := heap w ++ [new_runner];
          simulation_runner := Some (length (heap w));
          streams := streams w ++ [{| gf := GfEntry; sent := [] |}] |}).
Proof.
  unfold valid_config, start_simulation, update_config.
  destruct (map_name data) as [m|]; [|discriminate].
  destruct (Z.to_nat (default 1%Z (robot_count data))) as [|k];
    destruct (robot_position data) as [p|]; intros Hv;
    try discriminate; eexists; reflexivity.
Qed.

Lemma slot_empty_after_stop (w : World) :
  simulation_runner (snd (stop_simulation w)) = None.
Proof. unfold stop_simulation. by destruct (simulation_runner w) eqn:Hs. Qed.

End Handlers.

(** ** Start while a session is running *)

Lemma running_world_running : session_running running_world.
Proof.
  exists 0, new_runner, 0,
    {| gf := GfLoop {| self := 0; step := 0; pc := RunYieldedFrame |};
       sent := [EvFrame 0] |},
    {| self := 0; step := 0; pc := RunYieldedFrame |}.
  repeat split; reflexivity.
Qed.

(** C1, counterexample: with a session running, a second start request is
    answered with a new event stream and the slot now holds a new runner. *)
Lemma start_while_running_counterexample :
  ~ start_refused_when_running demo_request running_world.
Proof.
  intros Hc. destruct (Hc running_world_running) as [Href _].
  vm_compute in Href. discriminate.
Qed.

(** C1, amended: a valid start request always succeeds, also while a
    session is running. It opens a new stream, allocates a fresh runner
    (not paused, not stopped) and points the slot at it; every earlier
    runner object and every earlier stream (its generator state, step index
    and events) is left as it was. *)
Theorem start_replaces_session (data : StartRequest) (w : World) :
  valid_config data = true ->
  fst (start_simulation data w) = EventStream (length (streams w)) /\
  simulation_runner (snd (start_simulation data w)) = Some (length (heap w)) /\
  heap (snd (start_simulation data w)) !! length (heap w) = Some new_runner /\
  streams (snd (start_simulation data w)) !! length (streams w)
    = Some {| gf := GfEntry; sent := [] |} /\
  (forall a r, heap w !! a = Some r ->
     heap (snd (start_simulation data w)) !! a = Some r) /\
  (forall i s, streams w !! i = Some s ->
     streams (snd (start_simulation data w)) !! i = Some s).
Proof.
  intros Hv. destruct (valid_config_accepted data w Hv) as [cfg ->]. simpl.
  split; [reflexivity|]. split; [reflexivity|].
  split; [by rewrite lookup_app_r, Nat.sub_diag|].
  split; [by rewrite lookup_app_r, Nat.sub_diag|].
  split; intros k x Hk; rewrite lookup_app_l; auto; eapply lookup_lt_Some; eauto.
Qed.

Lemma start_replaces_session_witness :
  valid_config demo_request = true /\
  fst (start_simulation demo_request running_world) = EventStream 1 /\
  simulation_runner (snd (start_simulation demo_request running_world)) = Some 1 /\
  streams (snd (start_simulation demo_request running_world)) !! 0
    = Some {| gf := GfLoop {| self := 0; step := 0; pc := RunYieldedFrame |};
              sent := [EvFrame 0] |}.
Proof.
  split; [reflexivity|].
  destruct (start_replaces_session demo_request running_world eq_refl)
    as (H1 & H2 & _ & _ & _ & H6).
  split; [exact H1|]. split; [exact H2|].
  apply H6. reflexivity.
Defined.

(** ** Stop and pause without an active session *)

(** C5, counterexample: after the session completed the slot still holds
    its runner, and a stop request is answered with status stopped. *)
Lemma stop_after_completion_counterexample :
  ~ stop_refused_after_completion completed_world.
Proof.
  intros Hc.
  assert (Hs : fst (stop_simulation completed_world) = no_active_simulation).
  { apply Hc. eexists. split; [vm_compute; reflexivity|].
    split; vm_compute; reflexivity. }
  vm_compute in Hs. discriminate.
Qed.

(** C5, amended: a stop or a pause request is refused with "No active
    simulation" (status 400) and changes nothing whenever the slot is
    empty, which is the case before any start and after every stop
    request; when the slot holds a runner, whatever became of its stream, the
    stop request is answered with status stopped. *)
Theorem no_active_simulation_when_slot_empty (w : World) :
  (simulation_runner w = None ->
     stop_simulation w = (no_active_simulation, w) /\
     forall data, pause_simulation data w = (no_active_simulation, w)) /\
  (forall a, simulation_runner w = Some a ->
     fst (stop_simulation w) = Json 200 "status" "stopped") /\
  simulation_runner initial_world = None /\
  simulation_runner (snd (stop_simulation w)) = None.
Proof.
  split; [|split; [|split]].
  - intros Hs. unfold stop_simulation, pause_simulation. rewrite Hs. auto.
  - intros a Hs. unfold stop_simulation. by rewrite Hs.
  - reflexivity.
  - apply slot_empty_after_stop.
Qed.

Lemma no_active_simulation_when_slot_empty_witness :
  stop_simulation initial_world = (no_active_simulation, initial_world) /\
  pause_simulation {| req_paused := Some (PyBool true) |} initial_world
    = (no_active_simulation, initial_world) /\
  fst (stop_simulation completed_world) = Json 200 "status" "stopped".
Proof.
  destruct (no_active_simulation_when_slot_empty initial_world) as (H1 & _).
  destruct (H1 eq_refl) as [Hstop Hpause].
  destruct (no_active_simulation_when_slot_empty completed_world) as (_ & H2 & _).
  split; [exact Hstop|]. split; [apply Hpause|].
  apply (H2 0). vm_compute. reflexivity.
Defined.

(** ** Who clears the slot *)

(** C6, counterexample: the session completed and its generator returned,
    and the slot still holds the runner. *)
Lemma slot_after_completion_counterexample :
  ~ slot_cleared_on_completion completed_world.
Proof.
  intros Hc.
  assert (Hs : simulation_runner completed_world = None).
  { apply Hc. eexists. split; [vm_compute; reflexivity|].
    split; vm_compute; reflexivity. }
  vm_compute in Hs. discriminate.
Qed.

Section Slot.

Context {E : Engine}.

Lemma invalid_config_refused (data : StartRequest) (w : World) :
  valid_config data = false ->
  simulation_runner (snd (start_simulation data w)) = simulation_runner w.
Proof.
  unfold valid_config, start_simulation, update_config.
  destruct (map_name data) as [m|];
    destruct (Z.to_nat (default 1%Z (robot_count data))) as [|k];
    destruct (robot_position data) as [p|]; simpl; intros Hv;
    try discriminate; reflexivity.
Qed.

Lemma exec_keeps_slot_full (act : action) (w : World) (a : nat) :
  is_stop act = false -> simulation_runner w = Some a ->
  exists a', simulation_runner (exec act w) = Some a'.
Proof.
  intros Hact Hslot. destruct act as [data|data| |j|j]; simpl; try discriminate.
  - destruct (valid_config data) eqn:Hv.
    + destruct (valid_config_accepted data w Hv) as [cfg ->]. simpl. eauto.
    + rewrite (invalid_config_refused data w Hv). eauto.
  - unfold pause_simulation. rewrite Hslot. simpl. eauto.
  - destruct (tick_frame j w) as (_ & _ & ->). eauto.
  - destruct (disconnect_frame j w) as (_ & _ & ->). eauto.
Qed.

(** C6, amended: the slot is emptied by a stop request and by nothing
    else. After a stop request it is empty; a micro-step of a stream,
    whether it emits a frame, the completed event or the error event or lets
    the generator return, leaves the slot as it was, and so do a consumer
    disconnect and a pause request; a valid start request puts its fresh
    runner in the slot and a refused one leaves the slot as it was. So a
    slot that holds a runner holds one after every schedule without a stop
    request. *)
Theorem only_stop_clears_slot (w : World) :
  simulation_runner (snd (stop_simulation w)) = None /\
  (forall i, simulation_runner (tick i w) = simulation_runner w) /\
  (forall i, simulation_runner (disconnect i w) = simulation_runner w) /\
  (forall data, simulation_runner (snd (pause_simulation data w))
                = simulation_runner w) /\
  (forall data, valid_config data = true ->
     simulation_runner (snd (start_simulation data w)) = Some (length (heap w))) /\
  (forall data, valid_config data = false ->
     simulation_runner (snd (start_simulation data w)) = simulation_runner w) /\
  (forall acts a,
     forallb (fun act => negb (is_stop act)) acts = true ->
     simulation_runner w = Some a ->
     exists a', simulation_runner (run_schedule acts w) = Some a').
Proof.
  split; [apply slot_empty_after_stop|].
  split; [intros i; apply tick_frame|].
  split; [intros i; apply disconnect_frame|].
  split.
  { intros data. unfold pause_simulation.
    by destruct (simulation_runner w) eqn:Hs. }
  split.
  { intros data Hv. by destruct (valid_config_accepted data w Hv) as [cfg ->]. }
  split; [intros data Hv; by apply invalid_config_refused|].
  intros acts. revert w. induction acts as [|act acts IH]; intros w a Hacts Hslot.
  - eauto.
  - simpl in Hacts. apply andb_true_iff in Hacts as [Hact Hacts].
    apply negb_true_iff in Hact. rewrite run_schedule_cons.
    destruct (exec_keeps_slot_full act w a Hact Hslot) as [a' Ha'].
    eauto.
Qed.

End Slot.

(** ** The default of a pause request *)

(** C10: a pause request whose body has no [paused] field, sent while the
    slot holds a runner, sets that runner's paused flag to [True] and is
    answered with status paused; the outcome is the one of a request with
    [paused: true]. *)
Theorem pause_defaults_to_true (w : World) (a : nat) (r : SimulationRunner) :
  simulation_runner w = Some a ->
  heap w !! a = Some r ->
  fst (pause_simulation {| req_paused := None |} w) = Json 200 "status" "paused" /\
  heap (snd (pause_simulation {| req_paused := None |} w)) !! a
    = Some {| paused := PyBool true; stopped := stopped r |} /\
  pause_simulation {| req_paused := None |} w
    = pause_simulation {| req_paused := Some (PyBool true) |} w.
Proof.
  intros Hs Ha. unfold pause_simulation. rewrite Hs. simpl.
  split; [reflexivity|]. split; [|reflexivity].
  rewrite list_lookup_alter_eq, Ha. reflexivity.
Qed.

Lemma pause_defaults_to_true_witness :
  fst (pause_simulation {| req_paused := None |} running_world)
    = Json 200 "status" "paused" /\
  heap (snd (pause_simulation {| req_paused := None |} running_world)) !! 0
    = Some {| paused := PyBool true; stopped := false |}.
Proof.
  destruct (pause_defaults_to_true running_world 0 new_runner eq_refl eq_refl)
    as (H1 & H2 & _).
  split; [exact H1 | exact H2].
Defined.

(** ** The shape of a stream *)

Section Shape.

Context {E : Engine}.

Local Arguments Nat.leb : simpl never.
Local Arguments Nat.ltb : simpl never.

Lemma frames_snoc (k : nat) :
  map EvFrame (seq 0 k) ++ [EvFrame k] = map EvFrame (seq 0 (S k)).
Proof. by rewrite seq_S, map_app. Qed.

Lemma fresh_stream_shape : stream_shape fresh_stream.
Proof. exists 0, []. simpl. auto. Qed.

Ltac shape_with k tl :=
  exists k, tl; simpl; split;
  [rewrite ?app_nil_r, ?frames_snoc; reflexivity | auto; eauto].

Lemma resume_shape (slot : option nat) (heap : list SimulationRunner) (s : Stream) :
  stream_shape s -> stream_shape (resume slot heap s).
Proof.
  intros (k & tl & Hsent & Hst).
  destruct s as [st ev]. simpl in *. subst ev.
  destruct st as [|g| | |msg]; try contradiction.
  - (* first resumption: the global is read *)
    destruct Hst as [-> ->].
    destruct slot as [a|]; cbn.
    + shape_with 0 (@nil event).
    + shape_with 0 [EvError "'NoneType' object has no attribute 'run'"].
  - destruct Hst as [-> ->]. rewrite app_nil_r.
    destruct g as [a n p]. unfold next_index. simpl.
    destruct p; cbn.
    + shape_with 0 (@nil event).
    + destruct (heap !! a) as [r|]; cbn.
      * destruct (_ && negb (stopped r)); cbn.
        -- shape_with n (@nil event).
        -- shape_with n (@nil event).
      * shape_with n [EvError "dangling runner"].
    + destruct (heap !! a) as [r|]; cbn.
      * destruct (truthy (paused r)); cbn.
        -- shape_with n (@nil event).
        -- destruct (render_raises n) as [msg|]; cbn.
           ++ shape_with n [EvError msg].
           ++ destruct (savefig_raises n) as [msg|]; cbn.
              ** shape_with n [EvError msg].
              ** shape_with (S n) (@nil event).
      * shape_with n [EvError "dangling runner"].
    + destruct (_ <=? _)%nat; cbn.
      * shape_with (S n) [EvStatus "completed"].
      * shape_with (S n) (@nil event).
    + shape_with n (@nil event).
    + shape_with n (@nil event).
  - cbn. exists k, tl. simpl. split; [reflexivity|].
    destruct Hst as [->|[msg ->]]; eauto.
  - cbn. exists k, tl. simpl. auto.
Qed.

Lemma close_shape (s : Stream) : stream_shape s -> stream_shape (close s).
Proof.
  intros (k & tl & Hsent & Hst). unfold close.
  destruct (suspended (gf s)) eqn:Hsusp; [|by exists k, tl].
  exists k, tl. simpl. split; [exact Hsent|].
  destruct (gf s) as [|g| | |msg]; try discriminate.
  - left. apply Hst.
  - left. apply Hst.
  - destruct Hst as [->|[msg ->]]; eauto.
Qed.

(** What one action can do to the streams: open a fresh one, resume one,
    close one, or leave them. *)
Lemma exec_stream_back (a : action) (w : World) (i : nat) (s' : Stream) :
  streams (exec a w) !! i = Some s' ->
  s' = fresh_stream \/
  exists s, streams w !! i = Some s /\
    (s' = s \/ s' = resume (simulation_runner w) (heap w) s \/ s' = close s).
Proof.
  destruct a as [data|data| |j|j]; simpl.
  - unfold start_simulation.
    destruct (update_config _ _ _ _) as [cfg|msg]; simpl; [|eauto].
    destruct (map_name data); simpl; [|eauto].
    intros Hi. apply lookup_app_Some in Hi as [Hi|[_ Hi]]; [eauto|].
    left. destruct (i - length (streams w)); simpl in Hi; [|discriminate].
    by injection Hi as <-.
  - unfold pause_simulation. destruct (simulation_runner w); simpl; eauto.
  - unfold stop_simulation. destruct (simulation_runner w); simpl; eauto.
  - unfold tick. destruct (streams w !! j) as [s|] eqn:Hj; [|eauto].
    destruct (decide (j = i)) as [->|Hne].
    + rewrite (set_stream_lookup _ _ _ _ Hj). intros [= <-]. eauto 6.
    + rewrite set_stream_lookup_ne by done. eauto 6.
  - unfold disconnect. destruct (streams w !! j) as [s|] eqn:Hj; [|eauto].
    destruct (decide (j = i)) as [->|Hne].
    + rewrite (set_stream_lookup _ _ _ _ Hj). intros [= <-]. eauto 6.
    + rewrite set_stream_lookup_ne by done. eauto 6.
Qed.

(** An open stream stays in the list of streams. *)
Lemma exec_stream_forth (a : action) (w : World) (i : nat) (s : Stream) :
  streams w !! i = Some s ->
  exists s', streams (exec a w) !! i = Some s' /\
    (s' = s \/ s' = resume (simulation_runner w) (heap w) s \/ s' = close s).
Proof.
  intros Hi. destruct a as [data|data| |j|j]; simpl.
  - unfold start_simulation.
    destruct (update_config _ _ _ _) as [cfg|msg]; simpl; [|eauto].
    destruct (map_name data); simpl; [|eauto].
    exists s. split; [|auto]. rewrite lookup_app_l; [done|].
    eapply lookup_lt_Some; eauto.
  - unfold pause_simulation. destruct (simulation_runner w); simpl; eauto.
  - unfold stop_simulation. destruct (simulation_runner w); simpl; eauto.
  - unfold tick. destruct (streams w !! j) as [s0|] eqn:Hj; [|eauto].
    destruct (decide (j = i)) as [->|Hne].
    + rewrite (set_stream_lookup _ _ _ _ Hj).
      assert (s0 = s) as -> by congruence. eauto.
    + rewrite set_stream_lookup_ne by done. eauto.
  - unfold disconnect. destruct (streams w !! j) as [s0|] eqn:Hj; [|eauto].
    destruct (decide (j = i)) as [->|Hne].
    + rewrite (set_stream_lookup _ _ _ _ Hj).
      assert (s0 = s) as -> by congruence. eauto 6.
    + rewrite set_stream_lookup_ne by done. eauto.
Qed.

Lemma exec_shaped (a : action) (w : World) : shaped w -> shaped (exec a w).
Proof.
  intros Hw i s' Hi.
  destruct (exec_stream_back a w i s' Hi) as [->|(s & Hs & [->|[->| ->]])].
  - apply fresh_stream_shape.
  - eauto.
  - apply resume_shape. eauto.
  - apply close_shape. eauto.
Qed.

Lemma run_schedule_shaped (acts : list action) (w : World) :
  shaped w -> shaped (run_schedule acts w).
Proof.
  revert w. induction acts as [|a acts IH]; intros w Hw; [exact Hw|].
  rewrite run_schedule_cons. apply IH. by apply exec_shaped.
Qed.

Lemma initial_world_shaped : shaped initial_world.
Proof. intros i s Hi. discriminate. Qed.

Lemma frames_of_frames (l : list Figure) :
  frames_of (map EvFrame l) = l.
Proof.
  induction l as [|x l IH]; [done|].
  change (frames_of (map EvFrame (x :: l))) with (x :: frames_of (map EvFrame l)).
  by rewrite IH.
Qed.

Lemma stream_shape_frames (s : Stream) :
  stream_shape s -> exists k, frames_of (sent s) = seq 0 k.
Proof.
  intros (k & tl & -> & Hst). exists k.
  unfold frames_of. rewrite omap_app. fold (frames_of (map EvFrame (seq 0 k))).
  rewrite frames_of_frames.
  assert (Htl : tl = [] \/ tl = [EvStatus "completed"] \/ exists msg, tl = [EvError msg]).
  { destruct (gf s); intuition. }
  destruct Htl as [->|[->|[msg ->]]]; simpl; by rewrite app_nil_r.
Qed.

End Shape.

(** ** Step indices of the frames *)

Section Frames.

Context {E : Engine}.

(** C4: in every stream of every world the backend can reach, the frame
    events carry the steps 0, 1, 2, ... in this order, without gap or
    repetition: the frame at position [n] (counting from 0) is the one of
    step [n]. While the generator is in its loop, the frames sent are
    exactly those below the index of its next frame, so the frame of a step
    is sent only after the generator is done with every earlier step. *)
Theorem frame_steps_consecutive (acts : list action) (i : nat) (s : Stream) :
  streams (run_schedule acts initial_world) !! i = Some s ->
  frames_of (sent s) = seq 0 (length (frames_of (sent s))) /\
  (forall n fig, frames_of (sent s) !! n = Some fig -> fig = n) /\
  (forall g, gf s = GfLoop g -> frames_of (sent s) = seq 0 (next_index g)).
Proof.
  intros Hi.
  assert (Hshape : stream_shape s).
  { eapply run_schedule_shaped; [apply initial_world_shaped | exact Hi]. }
  destruct (stream_shape_frames s Hshape) as [k Hk].
  split; [|split].
  - by rewrite Hk, length_seq.
  - intros n fig. rewrite Hk. intros Hn.
    apply lookup_seq in Hn as [-> _]. reflexivity.
  - intros g Hg. destruct Hshape as (k' & tl & Hsent & Hst).
    rewrite Hg in Hst. destruct Hst as [-> ->].
    rewrite Hsent, app_nil_r. apply frames_of_frames.
Qed.

End Frames.

Lemma frame_steps_consecutive_witness :
  exists s,
    streams (run_schedule (E := quiet_engine)
               (Start demo_request :: Pause {| req_paused := None |}
                  :: ticks 0 3 ++ Pause {| req_paused := Some (PyBool false) |}
                  :: ticks 0 9)
               initial_world) !! 0 = Some s /\
    frames_of (sent s) = [0; 1; 2].
Proof.
  eexists. split; [vm_compute; reflexivity|].
  match goal with
  | |- frames_of (sent ?s) = _ =>
      destruct (frame_steps_consecutive (E := quiet_engine)
                  (Start demo_request :: Pause {| req_paused := None |}
                     :: ticks 0 3 ++ Pause {| req_paused := Some (PyBool false) |}
                     :: ticks 0 9) 0 s eq_refl) as [Hf _]
  end.
  rewrite Hf. reflexivity.
Defined.

(** ** Exceptions of the engine *)

Section Failure.

Context {E : Engine}.

Lemma generate_frames_step_catches (slot : option nat)
    (heap : list SimulationRunner) (st : gf_state) (msg : string) :
  generate_frames_step slot heap st <> Raise msg.
Proof.
  destruct st as [|g| | |m]; simpl; try discriminate.
  - destruct slot; discriminate.
  - destruct (run_step heap g) as [g'|it g'| |m]; simpl; try discriminate.
    destruct (String.eqb _ _); [discriminate|].
    destruct (item_frame it) as [fig|]; [|discriminate].
    destruct (savefig_raises fig); discriminate.
Qed.

Lemma resume_ended (slot : option nat) (heap : list SimulationRunner) (s : Stream) :
  ended s ->
  sent (resume slot heap s) = sent s /\ ended (resume slot heap s).
Proof.
  unfold ended, resume. intros [Hs|Hs]; rewrite Hs; simpl; auto.
Qed.

Lemma close_ended (s : Stream) :
  ended s -> sent (close s) = sent s /\ ended (close s).
Proof.
  unfold ended, close. intros [Hs|Hs]; rewrite Hs; simpl; auto.
Qed.

(** An ended stream sends nothing more, whatever happens next. *)
Lemma run_schedule_ended (acts : list action) (w : World) (i : nat) (s : Stream) :
  streams w !! i = Some s -> ended s ->
  exists s', streams (run_schedule acts w) !! i = Some s' /\
             sent s' = sent s /\ ended s'.
Proof.
  revert w s. induction acts as [|a acts IH]; intros w s Hi He; [eauto|].
  rewrite run_schedule_cons.
  destruct (exec_stream_forth a w i s Hi) as (s1 & H1 & Hcase).
  assert (Hs1 : sent s1 = sent s /\ ended s1).
  { destruct Hcase as [->|[->| ->]];
      [auto | by apply resume_ended | by apply close_ended]. }
  destruct Hs1 as [Hsent1 He1].
  destruct (IH _ _ H1 He1) as (s' & H' & Hsent' & He').
  exists s'. split; [exact H'|]. split; [congruence | exact He'].
Qed.

(** C8: when an exception is raised inside the [try] of [generate_frames]
    during a micro-step of a stream, be it raised by the [run] generator
    (the drawing of the step raises, in a loop iteration of a runner that is
    not paused) or by [savefig] on the frame it yielded, [generate_frames]
    catches it: the stream sends one error event carrying the message of the
    exception, and that event is its last one, whatever is scheduled
    afterwards; the generator then returns. No micro-step of
    [generate_frames] lets an exception out. *)
Theorem engine_failure_ends_stream_with_error
    (w : World) (i : nat) (s : Stream) (g : run_gen) (msg : string) :
  streams w !! i = Some s ->
  gf s = GfLoop g ->
  (run_step (heap w) g = Raise msg \/
   (exists r, pc g = RunLoopBody /\ heap w !! self g = Some r /\
              truthy (paused r) = false /\
              render_raises (step g) = Some msg) \/
   (exists r, pc g = RunLoopBody /\ heap w !! self g = Some r /\
              truthy (paused r) = false /\
              render_raises (step g) = None /\
              savefig_raises (step g) = Some msg)) ->
  streams (tick i w) !! i
    = Some {| gf := GfYieldedLast; sent := sent s ++ [EvError msg] |} /\
  (forall acts, exists s',
     streams (run_schedule acts (tick i w)) !! i = Some s' /\
     sent s' = sent s ++ [EvError msg] /\ ended s') /\
  (forall slot heap st m, generate_frames_step slot heap st <> Raise m).
Proof.
  intros Hi Hg Hraise.
  assert (Ht : streams (tick i w) !! i
               = Some {| gf := GfYieldedLast; sent := sent s ++ [EvError msg] |}).
  { rewrite (tick_lookup _ _ _ Hi). rewrite (set_stream_lookup _ _ _ _ Hi).
    unfold resume. rewrite Hg.
    destruct Hraise as [Hrun|[(r & Hpc & Hr & Hpause & Hrender)
                             |(r & Hpc & Hr & Hpause & Hrender & Hsave)]].
    - simpl. rewrite Hrun. reflexivity.
    - destruct g as [a n p]. simpl in *. subst p.
      unfold run_step. simpl. rewrite Hr, Hpause, Hrender. reflexivity.
    - destruct g as [a n p]. simpl in *. subst p.
      unfold run_step. simpl. rewrite Hr, Hpause, Hrender. simpl.
      rewrite Hsave. reflexivity. }
  split; [exact Ht|]. split.
  - intros acts. eapply (run_schedule_ended acts) in Ht as (s' & H' & Hsent & He).
    + exists s'. eauto.
    + by left.
  - intros slot hp st m. apply generate_frames_step_catches.
Qed.

End Failure.

Lemma engine_failure_ends_stream_with_error_witness :
  streams (tick (E := failing_engine 2 "render failed") 0 failing_world) !! 0
  = Some {| gf := GfYieldedLast;
            sent := [EvFrame 0; EvFrame 1; EvError "render failed"] |} /\
  streams (tick (E := savefig_failing_engine 1 "savefig failed") 0
             savefig_failing_world) !! 0
  = Some {| gf := GfYieldedLast;
            sent := [EvFrame 0; EvError "savefig failed"] |}.
Proof.
  split.
  - destruct (engine_failure_ends_stream_with_error
                (E := failing_engine 2 "render failed") failing_world 0
                {| gf := GfLoop {| self := 0; step := 2; pc := RunLoopBody |};
                   sent := [EvFrame 0; EvFrame 1] |}
                {| self := 0; step := 2; pc := RunLoopBody |}
                "render failed" eq_refl eq_refl) as [Ht _].
    + right. left. exists new_runner. repeat split; reflexivity.
    + exact Ht.
  - destruct (engine_failure_ends_stream_with_error
                (E := savefig_failing_engine 1 "savefig failed")
                savefig_failing_world 0
                {| gf := GfLoop {| self := 0; step := 1; pc := RunLoopBody |};
                   sent := [EvFrame 0] |}
                {| self := 0; step := 1; pc := RunLoopBody |}
                "savefig failed" eq_refl eq_refl) as [Ht _].
    + right. right. exists new_runner. repeat split; reflexivity.
    + exact Ht.
Defined.

(** ** Stopped runners *)

Section Stopped.

Context {E : Engine}.

Local Arguments Nat.leb : simpl never.
Local Arguments Nat.ltb : simpl never.
Local Arguments frame_count : simpl never.

Lemma frame_count_snoc (l : list event) (ev : event) (st st' : gf_state) :
  frame_count {| gf := st; sent := l ++ [ev] |}
  = frame_count {| gf := st'; sent := l |}
    + match ev with EvFrame _ => 1 | _ => 0 end.
Proof.
  unfold frame_count, frames_of. simpl. rewrite omap_app, length_app.
  destruct ev; reflexivity.
Qed.

Ltac arith_goals :=
  unfold runs_on, frame_count; simpl; repeat split; try reflexivity; try lia.

Lemma resume_stopped (slot : option nat) (heap : list SimulationRunner)
    (a : nat) (s : Stream) :
  stopped_at heap a -> runs_on a s ->
  runs_on a (resume slot heap s) /\
  frame_count (resume slot heap s) + in_iteration (gf (resume slot heap s))
    <= frame_count s + in_iteration (gf s) /\
  steps_left (gf (resume slot heap s)) <= pred (steps_left (gf s)).
Proof.
  intros (r & Ha & Hstop) Hon. destruct s as [st l].
  unfold runs_on in Hon. simpl in Hon.
  destruct st as [|g| | |m]; try contradiction.
  - destruct g as [a' n p]. simpl in Hon. subst a'.
    destruct p; cbn; rewrite ?Ha; cbn; rewrite ?Hstop, ?andb_false_r; cbn.
    + arith_goals.
    + arith_goals.
    + destruct (truthy (paused r)); cbn.
      { arith_goals. }
      destruct (render_raises n) as [m|]; cbn.
      { rewrite (frame_count_snoc _ _ _ (GfLoop (mkRun a n RunLoopBody))).
        arith_goals. }
      destruct (savefig_raises n) as [m|]; cbn.
      { rewrite (frame_count_snoc _ _ _ (GfLoop (mkRun a n RunLoopBody))).
        arith_goals. }
      rewrite (frame_count_snoc _ _ _ (GfLoop (mkRun a n RunLoopBody))).
      arith_goals.
    + destruct (_ <=? _)%nat; cbn.
      { rewrite (frame_count_snoc _ _ _ (GfLoop (mkRun a n RunYieldedFrame))).
        arith_goals. }
      arith_goals.
    + arith_goals.
    + arith_goals.
  - unfold resume. simpl. arith_goals.
  - unfold resume. simpl. arith_goals.
Qed.

Lemma close_stopped (a : nat) (s : Stream) :
  runs_on a s ->
  runs_on a (close s) /\
  frame_count (close s) + in_iteration (gf (close s))
    <= frame_count s + in_iteration (gf s).
Proof.
  unfold close. intros Hon.
  destruct (suspended (gf s)) eqn:Hsusp; [|split; [done|lia]].
  simpl. arith_goals.
Qed.

(** No request clears a stopped flag. *)
Lemma exec_stopped_at (act : action) (w : World) (a : nat) :
  stopped_at (heap w) a -> stopped_at (heap (exec act w)) a.
Proof.
  intros (r & Ha & Hstop). destruct act as [data|data| |j|j]; simpl.
  - unfold start_simulation.
    destruct (update_config _ _ _ _) as [cfg|msg]; simpl; [|by exists r].
    destruct (map_name data); simpl; [|by exists r].
    exists r. split; [|done]. rewrite lookup_app_l; [done|].
    eapply lookup_lt_Some; eauto.
  - unfold pause_simulation.
    destruct (simulation_runner w) as [a'|]; simpl; [|by exists r].
    destruct (decide (a' = a)) as [->|Hne].
    + exists (set_paused (default (PyBool true) (req_paused data)) r).
      split; [|done]. by rewrite list_lookup_alter_eq, Ha.
    + exists r. split; [|done]. by rewrite list_lookup_alter_ne.
  - unfold stop_simulation.
    destruct (simulation_runner w) as [a'|]; simpl; [|by exists r].
    destruct (decide (a' = a)) as [->|Hne].
    + exists (stop r). split; [|done]. by rewrite list_lookup_alter_eq, Ha.
    + exists r. split; [|done]. by rewrite list_lookup_alter_ne.
  - destruct (tick_frame j w) as (_ & -> & _). by exists r.
  - destruct (disconnect_frame j w) as (_ & -> & _). by exists r.
Qed.

Lemma run_schedule_stopped (acts : list action) (w : World) (a i : nat)
    (s : Stream) :
  stopped_at (heap w) a ->
  streams w !! i = Some s -> runs_on a s ->
  stopped_at (heap (run_schedule acts w)) a /\
  exists s', streams (run_schedule acts w) !! i = Some s' /\
    runs_on a s' /\
    frame_count s' + in_iteration (gf s') <= frame_count s + in_iteration (gf s).
Proof.
  revert w s. induction acts as [|act acts IH]; intros w s Hstop Hi Hon.
  - split; [done|]. exists s. split; [done|]. split; [done|lia].
  - rewrite run_schedule_cons.
    destruct (exec_stream_forth act w i s Hi) as (s1 & H1 & Hcase).
    assert (Hs1 : runs_on a s1 /\
                  frame_count s1 + in_iteration (gf s1)
                    <= frame_count s + in_iteration (gf s)).
    { destruct Hcase as [->|[->| ->]].
      - split; [done|lia].
      - destruct (resume_stopped (simulation_runner w) (heap w) a s Hstop Hon)
          as (? & ? & _). done.
      - by apply close_stopped. }
    destruct Hs1 as [Hon1 Hle1].
    destruct (IH (exec act w) s1 (exec_stopped_at act w a Hstop) H1 Hon1)
      as (Hstop' & s' & H' & Hon' & Hle').
    split; [done|]. exists s'. split; [done|]. split; [done|lia].
Qed.

(** C9: [stop] sets the stopped flag, and once the flag of a runner is set
    it stays set under every schedule of start, pause, resume and stop
    requests, micro-steps and disconnects. A stream that is iterating the
    [run] generator of that runner sends from then on at most the frame of
    the loop iteration in progress (one whose [while] condition was
    already evaluated), and no frame at all otherwise. *)
Theorem stopped_runner_stays_stopped (acts : list action) (w : World)
    (a : nat) (r : SimulationRunner) :
  heap w !! a = Some r ->
  stopped r = true ->
  (forall r0, stopped (stop r0) = true) /\
  (exists r', heap (run_schedule acts w) !! a = Some r' /\ stopped r' = true) /\
  (forall i s g,
     streams w !! i = Some s -> gf s = GfLoop g -> self g = a ->
     exists s', streams (run_schedule acts w) !! i = Some s' /\
       length (frames_of (sent s'))
         <= length (frames_of (sent s))
            + match pc g with RunLoopBody => 1 | _ => 0 end).
Proof.
  intros Ha Hstop. split; [reflexivity|].
  assert (Hat : stopped_at (heap w) a) by (exists r; auto).
  split.
  - clear Ha Hstop r. revert w Hat. induction acts as [|act acts IH]; intros w Hat.
    + exact Hat.
    + rewrite run_schedule_cons. apply IH. by apply exec_stopped_at.
  - intros i s g Hi Hg Hself.
    assert (Hon : runs_on a s) by (unfold runs_on; by rewrite Hg).
    destruct (run_schedule_stopped acts w a i s Hat Hi Hon)
      as (_ & s' & H' & _ & Hle).
    exists s'. split; [done|].
    unfold frame_count in Hle. rewrite Hg in Hle. simpl in Hle. lia.
Qed.

End Stopped.

Lemma stopped_runner_stays_stopped_witness :
  (exists r',
     heap (run_schedule (E := quiet_engine)
             (Pause {| req_paused := Some (PyBool false) |} :: ticks 0 4)
             stopped_world) !! 0 = Some r' /\ stopped r' = true) /\
  (exists s',
     streams (run_schedule (E := quiet_engine)
                (Pause {| req_paused := Some (PyBool false) |} :: ticks 0 4)
                stopped_world) !! 0 = Some s' /\
     length (frames_of (sent s')) <= 1).
Proof.
  destruct (stopped_runner_stays_stopped (E := quiet_engine)
              (Pause {| req_paused := Some (PyBool false) |} :: ticks 0 4)
              stopped_world 0 {| paused := PyBool false; stopped := true |}
              eq_refl eq_refl) as (_ & Hflag & Hframes).
  split; [exact Hflag|].
  exact (Hframes 0
           {| gf := GfLoop {| self := 0; step := 0; pc := RunLoopBody |};
              sent := [] |}
           {| self := 0; step := 0; pc := RunLoopBody |}
           eq_refl eq_refl eq_refl).
Defined.

(** ** Start, then stop *)

(** C2, counterexample: start, one frame, stop: the generator returns and
    the stream is the single frame event; no stopped event, no terminal
    marker at all. *)
Lemma start_stop_counterexample :
  ~ ends_with_terminal_marker stopped_stream_world 0.
Proof.
  intros Hc.
  destruct (Hc {| gf := GfFinished; sent := [EvFrame 0] |} eq_refl eq_refl)
    as (ev & Hlast & Hterm).
  vm_compute in Hlast. injection Hlast as <-. discriminate.
Qed.

Section StartStop.

Context {E : Engine}.

Local Arguments Nat.leb : simpl never.
Local Arguments Nat.ltb : simpl never.

Lemma resume_runs_on (slot : option nat) (heap : list SimulationRunner)
    (a : nat) (s : Stream) :
  runs_on a s -> runs_on a (resume slot heap s).
Proof.
  destruct s as [st l]. unfold runs_on. simpl.
  destruct st as [|g| | |m]; try contradiction; [|by cbn|by cbn].
  destruct g as [a' n p]. simpl. intros ->.
  destruct p; cbn; try done.
  - destruct (heap !! a) as [r|]; cbn; [|done].
    by destruct (_ && _); cbn.
  - destruct (heap !! a) as [r|]; cbn; [|done].
    destruct (truthy (paused r)); cbn; [done|].
    destruct (render_raises n); cbn; [done|].
    by destruct (savefig_raises n); cbn.
  - by destruct (_ <=? _)%nat; cbn.
Qed.

Lemma resumes_runs_on (n : nat) (slot : option nat)
    (heap : list SimulationRunner) (a : nat) (s : Stream) :
  runs_on a s -> runs_on a (resumes n slot heap s).
Proof.
  revert s. induction n as [|n IH]; intros s Hon; [done|].
  simpl. apply IH. by apply resume_runs_on.
Qed.

Lemma resumes_shape (n : nat) (slot : option nat)
    (heap : list SimulationRunner) (s : Stream) :
  stream_shape s -> stream_shape (resumes n slot heap s).
Proof.
  revert s. induction n as [|n IH]; intros s Hs; [done|].
  simpl. apply IH. by apply resume_shape.
Qed.

Lemma resumes_stopped (n : nat) (slot : option nat)
    (heap : list SimulationRunner) (a : nat) (s : Stream) :
  stopped_at heap a -> runs_on a s ->
  steps_left (gf (resumes n slot heap s)) <= steps_left (gf s) - n.
Proof.
  intros Hstop. revert s. induction n as [|n IH]; intros s Hon; [simpl; lia|].
  simpl. destruct (resume_stopped slot heap a s Hstop Hon) as (Hon' & _ & Hle).
  specialize (IH _ Hon'). lia.
Qed.

Lemma steps_left_bound (st : gf_state) : steps_left st <= 3.
Proof. destruct st as [|g| | |m]; simpl; try lia. destruct (pc g); lia. Qed.

(** C2, amended: for every valid config, a start followed by a stop request
    that arrives once the stream is being iterated ends the stream within
    three micro-steps: its generator returns and the slot is empty. The
    stream then consists of the frame events of steps [0 .. k-1] for some
    [k], followed by nothing at all, or by the completed event, or by one
    error event. The backend has no stopped event. *)
Theorem start_then_stop_stream (w : World) (data : StartRequest) (n : nat) :
  valid_config data = true ->
  exists s k tl,
    streams (run_schedule
               (Start data :: ticks (length (streams w)) (S n)
                  ++ Stop :: ticks (length (streams w)) 3) w)
      !! length (streams w) = Some s /\
    simulation_runner (run_schedule
               (Start data :: ticks (length (streams w)) (S n)
                  ++ Stop :: ticks (length (streams w)) 3) w) = None /\
    gf s = GfFinished /\
    sent s = map EvFrame (seq 0 k) ++ tl /\
    (tl = [] \/ tl = [EvStatus "completed"] \/ exists msg, tl = [EvError msg]) /\
    ~ In (EvStatus "stopped") (sent s).
Proof.
  intros Hv. set (i := length (streams w)). set (a := length (heap w)).
  rewrite run_schedule_cons. simpl exec.
  destruct (valid_config_accepted data w Hv) as [cfg ->]. simpl snd.
  fold i a. set (w1 := mkWorld _ _ _ _).
  assert (Hi1 : streams w1 !! i = Some fresh_stream).
  { subst w1 i. simpl. by rewrite lookup_app_r, Nat.sub_diag. }
  rewrite run_schedule_app, (ticks_resumes _ _ _ _ Hi1).
  set (s2 := resumes (S n) (simulation_runner w1) (heap w1) fresh_stream).
  assert (Hon2 : runs_on a s2).
  { subst s2. simpl resumes. apply resumes_runs_on. reflexivity. }
  assert (Hshape2 : stream_shape s2).
  { subst s2. apply resumes_shape, fresh_stream_shape. }
  rewrite run_schedule_cons. simpl exec. unfold stop_simulation. simpl.
  set (w3 := mkWorld _ _ _ _).
  change (tick i (tick i (tick i w3))) with (run_schedule (ticks i 3) w3).
  assert (Hi3 : streams w3 !! i = Some s2).
  { subst w3. simpl. apply list_lookup_insert_eq.
    eapply lookup_lt_Some; eauto. }
  assert (Hstop3 : stopped_at (heap w3) a).
  { exists (stop new_runner). split; [|done]. subst w3. simpl.
    rewrite list_lookup_alter_eq. subst a.
    by rewrite lookup_app_r, Nat.sub_diag. }
  rewrite (ticks_resumes _ _ _ _ Hi3).
  set (s4 := resumes 3 (simulation_runner w3) (heap w3) s2).
  assert (Hshape4 : stream_shape s4) by (subst s4; by apply resumes_shape).
  assert (Hleft : steps_left (gf s4) <= 0).
  { pose proof (resumes_stopped 3 (simulation_runner w3) (heap w3) a s2 Hstop3 Hon2).
    pose proof (steps_left_bound (gf s2)). fold s4 in H. lia. }
  destruct Hshape4 as (k & tl & Hsent & Hst).
  exists s4, k, tl.
  split; [by rewrite (set_stream_lookup _ _ _ _ Hi3)|].
  split; [reflexivity|].
  destruct (gf s4) as [|g| | |m] eqn:Hgf; simpl in Hleft; try lia;
    try contradiction.
  { destruct (pc g); lia. }
  split; [reflexivity|]. split; [exact Hsent|]. split; [exact Hst|].
  rewrite Hsent. intros Hin. apply in_app_iff in Hin as [Hin|Hin].
  - apply in_map_iff in Hin as (x & Hx & _). discriminate.
  - destruct Hst as [->|[->|[msg ->]]]; simpl in Hin;
      [done | destruct Hin as [Hin|[]]; discriminate
            | destruct Hin as [Hin|[]]; discriminate].
Qed.

End StartStop.

Lemma start_then_stop_stream_witness :
  valid_config demo_request = true /\
  exists s,
    streams (run_schedule (E := quiet_engine)
               (Start demo_request :: ticks 0 4 ++ Stop :: ticks 0 3)
               initial_world) !! 0 = Some s /\
    gf s = GfFinished /\ ~ In (EvStatus "stopped") (sent s).
Proof.
  split; [reflexivity|].
  destruct (start_then_stop_stream (E := quiet_engine) initial_world
              demo_request 3 eq_refl)
    as (s & k & tl & Hs & _ & Hgf & _ & _ & Hno).
  exists s. split; [exact Hs|]. split; [exact Hgf | exact Hno].
Defined.

(** ** A session that runs to the ceiling *)

Section Ceiling.

Context {E : Engine}.

Local Arguments Nat.leb : simpl never.
Local Arguments Nat.ltb : simpl never.

Lemma resumes_add (n m : nat) (slot : option nat)
    (heap : list SimulationRunner) (s : Stream) :
  resumes (n + m) slot heap s = resumes m slot heap (resumes n slot heap s).
Proof. revert s. induction n as [|n IH]; intros s; [done|]. simpl. apply IH. Qed.

Lemma resumes_finished (n : nat) (slot : option nat)
    (heap : list SimulationRunner) (l : list event) :
  resumes n slot heap {| gf := GfFinished; sent := l |}
  = {| gf := GfFinished; sent := l |}.
Proof. induction n as [|n IH]; [done|]. simpl. exact IH. Qed.

(** One loop iteration of a runner that is neither paused nor stopped,
    below the ceiling. *)
Lemma frame_iteration (slot : option nat) (heap : list SimulationRunner)
    (a k : nat) (r : SimulationRunner) (l : list event) :
  heap !! a = Some r -> stopped r = false -> truthy (paused r) = false ->
  S k < demo_steps ->
  render_raises k = None -> savefig_raises k = None ->
  resumes 3 slot heap
    {| gf := GfLoop {| self := a; step := k; pc := RunLoopHead |}; sent := l |}
  = {| gf := GfLoop {| self := a; step := S k; pc := RunLoopHead |};
       sent := l ++ [EvFrame k] |}.
Proof.
  intros Ha Hstop Hpause Hk Hr Hs. unfold demo_steps in Hk.
  assert (Hlt : (k <? max_steps)%nat = true)
    by (apply Nat.ltb_lt; unfold max_steps; lia).
  assert (Hle : (demo_steps <=? S k)%nat = false)
    by (apply Nat.leb_gt; unfold demo_steps; lia).
  cbn. rewrite Ha. cbn. rewrite Hlt, Hstop. cbn.
  rewrite Ha. cbn. rewrite Hpause, Hr. cbn. rewrite Hs. cbn.
  rewrite Hle. reflexivity.
Qed.

(** The iteration that reaches the ceiling. *)
Lemma last_iteration (slot : option nat) (heap : list SimulationRunner)
    (a k : nat) (r : SimulationRunner) (l : list event) :
  heap !! a = Some r -> stopped r = false -> truthy (paused r) = false ->
  S k = demo_steps ->
  render_raises k = None -> savefig_raises k = None ->
  resumes 4 slot heap
    {| gf := GfLoop {| self := a; step := k; pc := RunLoopHead |}; sent := l |}
  = {| gf := GfFinished; sent := (l ++ [EvFrame k]) ++ [EvStatus "completed"] |}.
Proof.
  intros Ha Hstop Hpause Hk Hr Hs. unfold demo_steps in Hk.
  assert (Hlt : (k <? max_steps)%nat = true)
    by (apply Nat.ltb_lt; unfold max_steps; lia).
  assert (Hle : (demo_steps <=? S k)%nat = true)
    by (apply Nat.leb_le; unfold demo_steps; lia).
  cbn. rewrite Ha. cbn. rewrite Hlt, Hstop. cbn.
  rewrite Ha. cbn. rewrite Hpause, Hr. cbn. rewrite Hs. cbn.
  rewrite Hle. reflexivity.
Qed.

Lemma frame_iterations (slot : option nat) (heap : list SimulationRunner)
    (a : nat) (r : SimulationRunner) (k : nat) :
  heap !! a = Some r -> stopped r = false -> truthy (paused r) = false ->
  k < demo_steps ->
  (forall j, j < k -> render_raises j = None /\ savefig_raises j = None) ->
  resumes (3 * k) slot heap
    {| gf := GfLoop {| self := a; step := 0; pc := RunLoopHead |}; sent := [] |}
  = {| gf := GfLoop {| self := a; step := k; pc := RunLoopHead |};
       sent := map EvFrame (seq 0 k) |}.
Proof.
  intros Ha Hstop Hpause. induction k as [|k IH]; intros Hk Hquiet; [done|].
  replace (3 * S k) with (3 * k + 3) by lia.
  rewrite resumes_add, IH; [|lia|intros j Hj; apply Hquiet; lia].
  destruct (Hquiet k) as [Hr Hs]; [lia|].
  rewrite (frame_iteration slot heap a k r _ Ha Hstop Hpause Hk Hr Hs).
  by rewrite frames_snoc.
Qed.

(** C3: a valid start request followed by micro-steps of its stream only,
    with an engine that raises at no step below 100: after 303 micro-steps
    (and after any larger number) the generator has returned and the
    stream is the 100 frame events of steps 0 to 99, in order, followed by
    the completed event: 101 events. *)
Theorem full_session_events (w : World) (data : StartRequest) (n : nat) :
  valid_config data = true ->
  (forall k, k < demo_steps ->
     render_raises k = None /\ savefig_raises k = None) ->
  303 <= n ->
  streams (run_schedule (Start data :: ticks (length (streams w)) n) w)
    !! length (streams w)
  = Some {| gf := GfFinished;
            sent := map EvFrame (seq 0 100) ++ [EvStatus "completed"] |} /\
  length (map EvFrame (seq 0 100) ++ [EvStatus "completed"]) = 101.
Proof.
  intros Hv Hquiet Hn. split; [|reflexivity].
  set (i := length (streams w)). set (a := length (heap w)).
  rewrite run_schedule_cons. simpl exec.
  destruct (valid_config_accepted data w Hv) as [cfg ->]. simpl snd.
  fold i a. set (w1 := mkWorld _ _ _ _).
  assert (Hi1 : streams w1 !! i = Some fresh_stream).
  { subst w1 i. simpl. by rewrite lookup_app_r, Nat.sub_diag. }
  assert (Ha : heap w1 !! a = Some new_runner).
  { subst w1 a. simpl. by rewrite lookup_app_r, Nat.sub_diag. }
  rewrite (ticks_resumes _ _ _ _ Hi1), (set_stream_lookup _ _ _ _ Hi1).
  f_equal.
  replace n with (2 + (3 * 99 + (4 + (n - 303)))) by lia.
  rewrite (resumes_add 2). change (simulation_runner w1) with (Some a).
  change (resumes 2 (Some a) (heap w1) fresh_stream)
    with {| gf := GfLoop {| self := a; step := 0; pc := RunLoopHead |};
            sent := [] |}.
  rewrite resumes_add.
  rewrite (frame_iterations (Some a) (heap w1) a new_runner 99 Ha eq_refl eq_refl);
    [|unfold demo_steps; lia|intros j Hj; apply Hquiet; unfold demo_steps; lia].
  rewrite resumes_add.
  destruct (Hquiet 99) as [Hr Hs]; [unfold demo_steps; lia|].
  rewrite (last_iteration (Some a) (heap w1) a 99 new_runner _ Ha
             eq_refl eq_refl eq_refl Hr Hs).
  rewrite resumes_finished, frames_snoc. reflexivity.
Qed.

End Ceiling.

Lemma full_session_events_witness :
  valid_config demo_request = true /\
  streams (run_schedule (E := quiet_engine) (Start demo_request :: ticks 0 303)
             initial_world) !! 0
  = Some {| gf := GfFinished;
            sent := map EvFrame (seq 0 100) ++ [EvStatus "completed"] |}.
Proof.
  split; [reflexivity|].
  destruct (full_session_events (E := quiet_engine) initial_world demo_request
              303 eq_refl) as [Hs _].
  - intros k _. split; reflexivity.
  - lia.
  - exact Hs.
Defined.

(** ** Pause and resume *)

Section PauseResume.

Context {E : Engine}.

Local Arguments Nat.leb : simpl never.
Local Arguments Nat.ltb : simpl never.






End PauseResume.

Section PauseResumeWorld.

Context {E : Engine}.



End PauseResumeWorld.

Section PauseResumeAll.

Context {E : Engine}.

Local Arguments Nat.leb : simpl never.
Local Arguments Nat.ltb : simpl never.



End PauseResumeAll.



(** ** The configuration written by a start request *)

Lemma lookup_map {A B : Type} (f : A -> B) (l : list A) (i : nat) :
  map f l !! i = f <$> l !! i.
Proof.
  revert i. induction l as [|x l IH]; intros [|i]; simpl; done.
Qed.

Lemma update_config_built (m : option string) (c : Z) (p : position)
    (goals : list position) :
  exists cfg,
    update_config m c (Some p) goals = Ok cfg /\
    length (robots cfg) = Z.to_nat c /\
    forall i, i < Z.to_nat c ->
      robots cfg !! i
      = Some {| robot_id := i; start_position := p; goals := goals |}.
Proof.
  unfold update_config. destruct (Z.to_nat c) as [|k] eqn:Hc.
  - eexists. split; [reflexivity|]. simpl. split; [reflexivity|].
    intros i Hi. lia.
  - eexists. split; [reflexivity|]. cbn [robots].
    split; [by rewrite length_map, length_seq|].
    intros i Hi. rewrite lookup_map, lookup_seq_lt by lia. reflexivity.
Qed.

(** [update_config] with a robot position: it succeeds, records the map
    name, and writes as many robots as the count says (none for a count
    below one), robot [i] being [robot_i] at the given start position
    with the survivors as goals, in the order given. *)
Theorem update_config_robots (m : option string) (c : Z) (p : position)
    (goals : list position) :
  exists cfg,
    update_config m c (Some p) goals = Ok cfg /\
    world_map cfg = m /\
    length (robots cfg) = Z.to_nat c /\
    forall i, i < Z.to_nat c ->
      robots cfg !! i
      = Some {| robot_id := i; start_position := p; goals := goals |}.
Proof.
  unfold update_config. destruct (Z.to_nat c) as [|k] eqn:Hc.
  - eexists. split; [reflexivity|]. simpl. repeat split. intros i Hi. lia.
  - eexists. split; [reflexivity|]. cbn [world_map robots].
    split; [reflexivity|].
    split; [by rewrite length_map, length_seq|].
    intros i Hi. rewrite lookup_map, lookup_seq_lt by lia. reflexivity.
Qed.

(** On arguments of the types its docstring gives (an integer count, a
    position that is absent or has its two coordinates, a list of
    survivors that have theirs), [update_config] raises exactly when at
    least one robot is asked for and no robot position is given. *)
Theorem update_config_raises_iff (m : option string) (c : Z)
    (p : option position) (goals : list position) :
  (exists msg, update_config m c p goals = Err msg) <->
  (1 <= c)%Z /\ p = None.
Proof.
  unfold update_config. destruct (Z.to_nat c) as [|k] eqn:Hc; split.
  - intros [msg Hm]. discriminate.
  - intros [Hc1 _]. lia.
  - intros [msg Hm]. destruct p; [discriminate|]. split; [lia|reflexivity].
  - intros [_ ->]. eauto.
Qed.

(** ** Start requests the handler refuses *)

(** Among the requests whose fields are each either absent or of their
    type (a string for the map name, an integer for the robot count, a
    position with its two coordinates, a list of such positions for the
    survivors), a request is answered with an event stream exactly when it
    is a valid config; any other of them is answered with a server error
    and creates no runner, leaves the slot as it was and opens no
    stream. *)
Theorem start_accepted_iff_valid (data : StartRequest) (w : World) :
  (valid_config data = true <->
   exists i, fst (start_simulation data w) = EventStream i) /\
  (valid_config data = false ->
   (exists msg, fst (start_simulation data w) = InternalServerError msg) /\
   heap (snd (start_simulation data w)) = heap w /\
   simulation_runner (snd (start_simulation data w)) = simulation_runner w /\
   streams (snd (start_simulation data w)) = streams w).
Proof.
  unfold valid_config, start_simulation, update_config.
  destruct (map_name data) as [m|];
    destruct (Z.to_nat (default 1%Z (robot_count data))) as [|k];
    destruct (robot_position data) as [p|]; simpl;
    (split; [split; [intros Hv; try discriminate; eauto
                    | intros [i Hi]; try discriminate; reflexivity]
            | intros Hv; try discriminate; eauto]).
Qed.

(** The configuration is written before the map path is built: a start
    request without a map name whose robots can be built is refused, and the
    configuration is nevertheless replaced by the one built from the
    request. When building the robots raises, nothing at all is changed. *)
Theorem refused_start_and_config (data : StartRequest) (w : World) :
  (forall cfg,
     map_name data = None ->
     update_config None (default 1%Z (robot_count data)) (robot_position data)
       (default [] (survivors data)) = Ok cfg ->
     refused (fst (start_simulation data w)) = true /\
     config (snd (start_simulation data w)) = cfg) /\
  (forall msg,
     update_config (map_name data) (default 1%Z (robot_count data))
       (robot_position data) (default [] (survivors data)) = Err msg ->
     start_simulation data w = (InternalServerError msg, w)).
Proof.
  split.
  - intros cfg Hmap Hcfg. unfold start_simulation. rewrite Hmap, Hcfg. auto.
  - intros msg Herr. unfold start_simulation. by rewrite Herr.
Qed.

(** ** Runners out of the slot *)

Section Orphans.

Context {E : Engine}.

Lemma exec_orphan (act : action) (w : World) (a : nat) :
  a < length (heap w) -> simulation_runner w <> Some a ->
  a < length (heap (exec act w)) /\
  simulation_runner (exec act w) <> Some a /\
  heap (exec act w) !! a = heap w !! a.
Proof.
  intros Ha Hslot. destruct act as [data|data| |j|j]; simpl.
  - unfold start_simulation.
    destruct (update_config _ _ _ _) as [cfg|msg]; simpl; [|done].
    destruct (map_name data); simpl; [|done].
    rewrite length_app. split; [lia|]. split.
    + intros [= Heq]. lia.
    + by rewrite lookup_app_l.
  - unfold pause_simulation.
    destruct (simulation_runner w) as [a'|] eqn:Hs; simpl; [|by rewrite Hs].
    rewrite length_alter. split; [done|]. split; [done|].
    apply list_lookup_alter_ne. congruence.
  - unfold stop_simulation.
    destruct (simulation_runner w) as [a'|] eqn:Hs; simpl; [|by rewrite Hs].
    rewrite length_alter. split; [done|]. split; [done|].
    apply list_lookup_alter_ne. congruence.
  - destruct (tick_frame j w) as (_ & -> & ->). auto.
  - destruct (disconnect_frame j w) as (_ & -> & ->). auto.
Qed.

(** A runner that exists and is not the one in the slot is out of reach:
    no schedule of requests, micro-steps and disconnects changes its paused
    or its stopped flag, and it never comes back into the slot. This is the
    fate of a runner replaced by a second start request and of a runner
    that was stopped. *)
Theorem orphaned_runner_unchanged (acts : list action) (w : World) (a : nat) :
  a < length (heap w) ->
  simulation_runner w <> Some a ->
  heap (run_schedule acts w) !! a = heap w !! a /\
  simulation_runner (run_schedule acts w) <> Some a.
Proof.
  revert w. induction acts as [|act acts IH]; intros w Ha Hslot; [done|].
  rewrite run_schedule_cons.
  destruct (exec_orphan act w a Ha Hslot) as (Ha' & Hslot' & Heq).
  destruct (IH _ Ha' Hslot') as [Hheap Hs]. split; [congruence|done].
Qed.

End Orphans.

Lemma orphaned_runner_unchanged_witness :
  heap (run_schedule (E := quiet_engine)
          [Pause pause_request; Stop; Tick 0; Tick 0] replaced_world) !! 0
  = Some new_runner.
Proof.
  destruct (orphaned_runner_unchanged (E := quiet_engine)
              [Pause pause_request; Stop; Tick 0; Tick 0] replaced_world 0)
    as [Hheap _].
  - vm_compute. lia.
  - vm_compute. discriminate.
  - exact Hheap.
Defined.

(** ** Invariants of the worlds the backend reaches *)

Section Reachable.

Context {E : Engine}.

Local Arguments Nat.leb : simpl never.
Local Arguments Nat.ltb : simpl never.
Local Arguments frame_count : simpl never.

(** Where a generator in its loop comes from. *)
Lemma resume_loop_origin (slot : option nat) (heap : list SimulationRunner)
    (s : Stream) (g' : run_gen) :
  gf (resume slot heap s) = GfLoop g' ->
  (gf s = GfEntry /\ slot = Some (self g')) \/
  (exists g, gf s = GfLoop g /\ self g' = self g).
Proof.
  destruct s as [st l]. destruct st as [|g| | |m]; cbn; try discriminate.
  - destruct slot as [a|]; cbn; [|discriminate]. intros [= <-]. auto.
  - intros Hg. right. exists g. split; [reflexivity|].
    assert (Hon : runs_on (self g) (resume slot heap {| gf := GfLoop g; sent := l |})).
    { apply resume_runs_on. reflexivity. }
    unfold runs_on in Hon. unfold resume in Hon. simpl in Hon.
    rewrite Hg in Hon. exact Hon.
Qed.

Lemma close_loop_origin (s : Stream) (g' : run_gen) :
  gf (close s) = GfLoop g' -> gf s = GfLoop g'.
Proof. unfold close. destruct (suspended (gf s)); [discriminate|done]. Qed.

Lemma exec_heap_length (act : action) (w : World) :
  length (heap w) <= length (heap (exec act w)).
Proof.
  destruct act as [data|data| |j|j]; simpl.
  - unfold start_simulation.
    destruct (update_config _ _ _ _) as [cfg|msg]; simpl; [|lia].
    destruct (map_name data); simpl; [|lia]. rewrite length_app. lia.
  - unfold pause_simulation.
    destruct (simulation_runner w); simpl; [|lia]. by rewrite length_alter.
  - unfold stop_simulation.
    destruct (simulation_runner w); simpl; [|lia]. by rewrite length_alter.
  - destruct (tick_frame j w) as (_ & -> & _). lia.
  - destruct (disconnect_frame j w) as (_ & -> & _). lia.
Qed.

Lemma exec_well_formed (act : action) (w : World) :
  well_formed w -> well_formed (exec act w).
Proof.
  intros [Hslot Hgen]. split.
  - (* the slot *)
    destruct act as [data|data| |j|j]; simpl.
    + unfold start_simulation.
      destruct (update_config _ _ _ _) as [cfg|msg]; simpl; [|exact Hslot].
      destruct (map_name data); simpl; [|exact Hslot].
      intros a [= <-]. exists new_runner.
      split; [by rewrite lookup_app_r, Nat.sub_diag|reflexivity].
    + unfold pause_simulation.
      destruct (simulation_runner w) as [a'|] eqn:Hs; simpl; [|by rewrite Hs].
      intros a [= <-]. destruct (Hslot a' eq_refl) as (r & Hr & Hstop).
      exists (set_paused (default (PyBool true) (req_paused data)) r).
      split; [by rewrite list_lookup_alter_eq, Hr|exact Hstop].
    + unfold stop_simulation.
      destruct (simulation_runner w) as [a'|] eqn:Hs; simpl; [|by rewrite Hs].
      discriminate.
    + destruct (tick_frame j w) as (_ & -> & ->). exact Hslot.
    + destruct (disconnect_frame j w) as (_ & -> & ->). exact Hslot.
  - (* the generators *)
    intros i s' g' Hi Hg'.
    pose proof (exec_heap_length act w) as Hlen.
    destruct (exec_stream_back act w i s' Hi) as [->|(s & Hs & [->|[->| ->]])].
    + discriminate.
    + specialize (Hgen i s g' Hs Hg'). lia.
    + apply resume_loop_origin in Hg' as [[_ Hs']|(g & Hg & Hself)].
      * destruct (Hslot _ Hs') as (r & Hr & _).
        apply lookup_lt_Some in Hr. lia.
      * specialize (Hgen i s g Hs Hg). lia.
    + apply close_loop_origin in Hg'. specialize (Hgen i s g' Hs Hg'). lia.
Qed.

(** In every world the backend reaches, the slot is empty or points at a
    runner that exists and was not stopped (a stopped runner is never left
    in the slot), and every generator inside its loop iterates a runner that
    exists, so [run] never fails for want of its runner. *)
Theorem reachable_well_formed (acts : list action) :
  (forall a, simulation_runner (run_schedule acts initial_world) = Some a ->
     exists r, heap (run_schedule acts initial_world) !! a = Some r /\
               stopped r = false) /\
  (forall i s g,
     streams (run_schedule acts initial_world) !! i = Some s ->
     gf s = GfLoop g ->
     is_Some (heap (run_schedule acts initial_world) !! self g)).
Proof.
  assert (Hwf : well_formed (run_schedule acts initial_world)).
  { assert (H0 : well_formed initial_world).
    { split; [discriminate|]. intros i s g Hi. discriminate. }
    revert H0. generalize initial_world.
    induction acts as [|act acts IH]; intros w Hw; [exact Hw|].
    rewrite run_schedule_cons. apply IH. by apply exec_well_formed. }
  destruct Hwf as [Hslot Hgen]. split; [exact Hslot|].
  intros i s g Hi Hg. apply lookup_lt_is_Some. eauto.
Qed.

Lemma fresh_stream_capped : capped fresh_stream.
Proof.
  split; [unfold frame_count, demo_steps; simpl; lia|].
  split; [reflexivity|]. intros g Hg. discriminate.
Qed.

Ltac capped_goal :=
  split; [|split];
  [ rewrite ?(frame_count_snoc _ _ _ GfEntry);
    unfold frame_count, demo_steps in *; simpl in *; lia
  | simpl; intros Hentry; discriminate
  | intros g' Hg'; simpl in Hg'; try discriminate;
    injection Hg' as <-; simpl;
    rewrite ?(frame_count_snoc _ _ _ GfEntry);
    unfold frame_count, demo_steps, next_index in *; simpl in *;
    repeat split; auto; try lia ].

Lemma resume_capped (slot : option nat) (heap : list SimulationRunner)
    (s : Stream) :
  capped s -> capped (resume slot heap s).
Proof.
  intros (Hcount & Hentry0 & Hloop). destruct s as [st l].
  destruct st as [|g| | |m]; simpl in *.
  - specialize (Hentry0 eq_refl). destruct slot as [a|]; cbn; capped_goal.
  - destruct (Hloop g eq_refl) as (Hin & Hnext & Hstep). clear Hloop.
    destruct g as [a n p]. unfold next_index in Hnext. simpl in *.
    destruct p; try discriminate; cbn.
    + capped_goal.
    + destruct Hstep as [Hstep|Hstep]; [discriminate|].
      destruct (heap !! a) as [r|]; cbn; [|capped_goal].
      destruct (_ && _); cbn; capped_goal.
    + destruct Hstep as [Hstep|Hstep]; [discriminate|].
      destruct (heap !! a) as [r|]; cbn; [|capped_goal].
      destruct (truthy (paused r)); cbn; [capped_goal|].
      destruct (render_raises n); cbn; [capped_goal|].
      destruct (savefig_raises n); cbn; capped_goal.
    + destruct Hstep as [Hstep|Hstep]; [discriminate|].
      destruct (Nat.leb_spec demo_steps (S n)) as [Hle|Hlt]; cbn; capped_goal.
  - cbn. capped_goal.
  - cbn. capped_goal.
  - cbn. capped_goal.
Qed.

Lemma close_capped (s : Stream) : capped s -> capped (close s).
Proof.
  intros (Hcount & Hentry0 & Hloop). unfold close.
  destruct (suspended (gf s)); [|by split; [|split]].
  split; [exact Hcount|]. split; [discriminate|]. intros g Hg. discriminate.
Qed.

Lemma run_schedule_capped (acts : list action) (w : World) :
  (forall i s, streams w !! i = Some s -> capped s) ->
  forall i s, streams (run_schedule acts w) !! i = Some s -> capped s.
Proof.
  revert w. induction acts as [|act acts IH]; intros w Hw; [exact Hw|].
  rewrite run_schedule_cons. apply IH. intros i s' Hi.
  destruct (exec_stream_back act w i s' Hi) as [->|(s & Hs & [->|[->| ->]])].
  - apply fresh_stream_capped.
  - eauto.
  - apply resume_capped. eauto.
  - apply close_capped. eauto.
Qed.

(** No stream ever carries more than 100 frames, whatever is scheduled;
    a generator at its loop head always has a step counter below
    [max_steps], so the bound of 1000 never ends a loop: only the stopped
    flag and the 100 steps of the demo do. *)
Theorem frames_capped (acts : list action) (i : nat) (s : Stream) :
  streams (run_schedule acts initial_world) !! i = Some s ->
  length (frames_of (sent s)) <= 100 /\
  (forall g, gf s = GfLoop g -> pc g = RunLoopHead ->
     (step g <? max_steps)%nat = true).
Proof.
  intros Hi.
  assert (Hcap : capped s).
  { eapply (run_schedule_capped acts initial_world); [|exact Hi].
    intros j s0 Hj. discriminate. }
  destruct Hcap as (Hcount & _ & Hloop). split; [exact Hcount|].
  intros g Hg Hpc. destruct (Hloop g Hg) as (_ & _ & [Hentry|Hstep]).
  - congruence.
  - apply Nat.ltb_lt. unfold max_steps, demo_steps in *. lia.
Qed.

End Reachable.

Lemma frames_capped_witness :
  exists s,
    streams (run_schedule (E := quiet_engine)
               (Start demo_request :: ticks 0 400) initial_world) !! 0 = Some s /\
    length (frames_of (sent s)) <= 100.
Proof.
  eexists. split; [vm_compute; reflexivity|].
  match goal with
  | |- length (frames_of (sent ?s)) <= _ =>
      destruct (frames_capped (E := quiet_engine)
                  (Start demo_request :: ticks 0 400) 0 s eq_refl) as [Hf _]
  end.
  exact Hf.
Defined.

(** ** The global is read when the stream is first iterated *)

Section LateBinding.

Context {E : Engine}.

(** A stop request that arrives before the first micro-step of the
    stream of a valid start request: the global is empty when
    [generate_frames] reads it, and the stream is one error event, with the
    message of the attribute error, after which the generator returns. *)
Theorem stop_before_first_iteration (w : World) (data : StartRequest) (n : nat) :
  valid_config data = true ->
  streams (run_schedule
             (Start data :: Stop :: ticks (length (streams w)) (2 + n)) w)
    !! length (streams w)
  = Some {| gf := GfFinished;
            sent := [EvError "'NoneType' object has no attribute 'run'"] |}.
Proof.
  intros Hv. set (i := length (streams w)).
  rewrite run_schedule_cons. simpl exec.
  destruct (valid_config_accepted data w Hv) as [cfg ->]. simpl snd.
  set (w1 := mkWorld _ _ _ _).
  rewrite run_schedule_cons. set (w2 := exec Stop w1).
  assert (Hi2 : streams w2 !! i = Some fresh_stream).
  { subst w2 w1 i. simpl. by rewrite lookup_app_r, Nat.sub_diag. }
  assert (Hslot2 : simulation_runner w2 = None) by reflexivity.
  rewrite (ticks_resumes _ _ _ _ Hi2), (set_stream_lookup _ _ _ _ Hi2).
  f_equal. rewrite Hslot2.
  change (resumes (2 + n) None (heap w2) fresh_stream)
    with (resumes n None (heap w2)
            {| gf := GfFinished;
               sent := [EvError "'NoneType' object has no attribute 'run'"] |}).
  apply resumes_finished.
Qed.

(** Two valid start requests in a row, before either stream is iterated:
    both streams then iterate the runner of the second request, since each
    reads the global at its first micro-step; the runner of the first
    request is iterated by no stream. *)
Theorem second_start_takes_both_streams (w : World) (d1 d2 : StartRequest) :
  valid_config d1 = true ->
  valid_config d2 = true ->
  streams (run_schedule
             [Start d1; Start d2; Tick (length (streams w));
              Tick (S (length (streams w)))] w) !! length (streams w)
  = Some {| gf := GfLoop {| self := S (length (heap w)); step := 0; pc := RunEntry |};
            sent := [] |} /\
  streams (run_schedule
             [Start d1; Start d2; Tick (length (streams w));
              Tick (S (length (streams w)))] w) !! S (length (streams w))
  = Some {| gf := GfLoop {| self := S (length (heap w)); step := 0; pc := RunEntry |};
            sent := [] |}.
Proof.
  intros Hv1 Hv2. set (i := length (streams w)). set (a := length (heap w)).
  rewrite run_schedule_cons. simpl exec.
  destruct (valid_config_accepted d1 w Hv1) as [cfg1 ->]. simpl snd.
  set (w1 := mkWorld _ _ _ _).
  rewrite run_schedule_cons. simpl exec.
  destruct (valid_config_accepted d2 w1 Hv2) as [cfg2 ->]. simpl snd.
  set (w2 := mkWorld _ _ _ _).
  assert (H1 : streams w2 !! i = Some fresh_stream).
  { subst w2 w1 i. simpl. rewrite lookup_app_l by (rewrite length_app; simpl; lia).
    by rewrite lookup_app_r, Nat.sub_diag. }
  assert (H2 : streams w2 !! S i = Some fresh_stream).
  { subst w2 w1 i. simpl.
    rewrite lookup_app_r by (rewrite length_app; simpl; lia).
    rewrite length_app. simpl.
    by replace (S (length (streams w)) - (length (streams w) + 1)) with 0 by lia. }
  assert (Hslot : simulation_runner w2 = Some (S a)).
  { subst w2 w1 a. simpl. rewrite length_app. simpl. f_equal. lia. }
  rewrite run_schedule_cons. simpl exec. rewrite (tick_lookup _ _ _ H1).
  set (w3 := set_stream i _ w2).
  assert (H3 : streams w3 !! S i = Some fresh_stream).
  { subst w3. rewrite set_stream_lookup_ne by lia. exact H2. }
  rewrite run_schedule_cons. simpl exec. rewrite (tick_lookup _ _ _ H3).
  change (run_schedule [] ?x) with x.
  split.
  - rewrite set_stream_lookup_ne by lia. subst w3.
    rewrite (set_stream_lookup _ _ _ _ H1), Hslot. reflexivity.
  - rewrite (set_stream_lookup _ _ _ _ H3).
    change (simulation_runner w3) with (simulation_runner w2).
    rewrite Hslot. reflexivity.
Qed.

End LateBinding.

Lemma stop_before_first_iteration_witness :
  valid_config demo_request = true /\
  streams (run_schedule (E := quiet_engine)
             (Start demo_request :: Stop :: ticks 0 2) initial_world) !! 0
  = Some {| gf := GfFinished;
            sent := [EvError "'NoneType' object has no attribute 'run'"] |}.
Proof.
  split; [reflexivity|].
  exact (stop_before_first_iteration (E := quiet_engine) initial_world
           demo_request 0 eq_refl).
Defined.

Lemma second_start_takes_both_streams_witness :
  streams (run_schedule (E := quiet_engine)
             [Start demo_request; Start demo_request; Tick 0; Tick 1]
             initial_world) !! 0
  = Some {| gf := GfLoop {| self := 1; step := 0; pc := RunEntry |}; sent := [] |}.
Proof.
  destruct (second_start_takes_both_streams (E := quiet_engine) initial_world
              demo_request demo_request eq_refl eq_refl) as [H1 _].
  exact H1.
Defined.

(** ** Pause requests *)

(** A pause request touches one thing only. With a runner in the slot it
    stores the value of the request in that runner's paused flag, leaving
    its stopped flag, every other runner, the slot, the streams and the
    configuration as they were, and it answers paused exactly when the
    stored value is truthy: a body with [paused] false, 0, the empty string
    or null resumes. *)
Theorem pause_sets_flag_only (data : PauseRequest) (w : World) (a : nat)
    (r : SimulationRunner) :
  simulation_runner w = Some a ->
  heap w !! a = Some r ->
  heap (snd (pause_simulation data w)) !! a
    = Some {| paused := default (PyBool true) (req_paused data);
              stopped := stopped r |} /\
  (forall a', a' <> a ->
     heap (snd (pause_simulation data w)) !! a' = heap w !! a') /\
  simulation_runner (snd (pause_simulation data w)) = Some a /\
  streams (snd (pause_simulation data w)) = streams w /\
  config (snd (pause_simulation data w)) = config w /\
  (fst (pause_simulation data w) = Json 200 "status" "paused" <->
   truthy (default (PyBool true) (req_paused data)) = true) /\
  (fst (pause_simulation data w) = Json 200 "status" "resumed" <->
   truthy (default (PyBool true) (req_paused data)) = false).
Proof.
  intros Hs Ha. unfold pause_simulation. rewrite Hs. simpl.
  split; [by rewrite list_lookup_alter_eq, Ha|].
  split; [intros a' Hne; by apply list_lookup_alter_ne|].
  repeat (split; [reflexivity|]).
  destruct (truthy _); split; split; intros Heq; try reflexivity; discriminate.
Qed.

Lemma pause_sets_flag_only_witness :
  heap (snd (pause_simulation {| req_paused := Some (PyInt 0) |} running_world)) !! 0
    = Some {| paused := PyInt 0; stopped := false |} /\
  fst (pause_simulation {| req_paused := Some (PyInt 0) |} running_world)
    = Json 200 "status" "resumed".
Proof.
  destruct (pause_sets_flag_only {| req_paused := Some (PyInt 0) |}
              running_world 0 new_runner eq_refl eq_refl)
    as (H1 & _ & _ & _ & _ & _ & H2).
  split; [exact H1|]. apply H2. reflexivity.
Defined.

(** Of two pause requests in a row the last one wins: the world and the
    answer are those of the second request alone. In particular a repeated
    request changes nothing more. *)
Theorem pause_last_wins (d1 d2 : PauseRequest) (w : World) :
  pause_simulation d2 (snd (pause_simulation d1 w)) = pause_simulation d2 w.
Proof.
  unfold pause_simulation.
  destruct (simulation_runner w) as [a|] eqn:Hs; simpl; [|by rewrite Hs].
  f_equal. f_equal.
  rewrite list_alter_alter_eq. by apply list_alter_ext.
Qed.

(** ** Stop while paused *)

Section StopPaused.

Context {E : Engine}.

Local Arguments Nat.leb : simpl never.
Local Arguments Nat.ltb : simpl never.


End StopPaused.


(** ** The page *)

Section PageFacts.

Context {Pos : Type} (json_position : Pos -> position).

Local Abbreviation State := (@Index.State Pos).
Local Abbreviation ui_event := (@Index.ui_event Pos).

Local Arguments Nat.leb : simpl never.
Local Arguments Nat.ltb : simpl never.

Lemma ui_run_cons (e : ui_event) (evs : list ui_event) (st : State) :
  Index.ui_run json_position (e :: evs) st
  = Index.ui_run json_position evs (Index.ui_step json_position e st).
Proof. reflexivity. Qed.

Lemma robot_options_range (n : nat) : n ∈ Index.robot_options -> 1 <= n <= 10.
Proof.
  unfold Index.robot_options. intros Hn. apply list_elem_of_In in Hn.
  apply in_map_iff in Hn as (i & <- & Hi). apply in_seq in Hi. lia.
Qed.

Lemma ui_step_inv (e : ui_event) (st : State) :
  Index.page_inv st -> Index.page_inv (Index.ui_step json_position e st).
Proof.
  intros (Hlen & Hcount & Hmode & Hdis).
  destruct st as [sm mu rc rp sv stt sf ip md].
  unfold Index.page_inv, Index.disabled in *. simpl in *.
  destruct e as [name|url| |pos| | |n| | |ev|captured| ];
    unfold Index.ui_step, Index.handleCanvasClick, Index.hasRobotPosition,
      Index.disabled, Index.isSimulating, Index.handleStartSimulation,
      Index.on_data; simpl.
  - destruct stt; simpl; try case_bool_decide; simpl;
      intuition (try discriminate; try lia).
  - intuition (try discriminate; try lia).
  - intuition (try discriminate; try lia).
  - destruct stt, md, rp; simpl;
      try (destruct (Nat.ltb_spec (length sv) 15)); simpl;
      rewrite ?length_app; simpl;
      intuition (try discriminate; try lia).
  - destruct stt, rp; simpl; intuition (try discriminate; try lia).
  - destruct stt, rp; simpl; try (destruct (15 <=? length sv)%nat); simpl;
      intuition (try discriminate; try lia).
  - destruct stt; simpl; try case_bool_decide; simpl;
      try (pose proof (robot_options_range n ltac:(assumption)));
      intuition (try discriminate; try lia).
  - destruct stt, rp; simpl; intuition (try discriminate; try lia).
  - intuition (try discriminate; try lia).
  - destruct ev as [fig|s0|msg]; simpl;
      try (destruct (String.eqb s0 "completed")); simpl;
      intuition (try discriminate; try lia).
  - destruct captured; simpl; intuition (try discriminate; try lia).
  - intuition (try discriminate; try lia).
Qed.

Lemma ui_run_inv (evs : list ui_event) (st : State) :
  Index.page_inv st -> Index.page_inv (Index.ui_run json_position evs st).
Proof.
  revert st. induction evs as [|e evs IH]; intros st Hst; [exact Hst|].
  rewrite ui_run_cons. apply IH. by apply ui_step_inv.
Qed.

(** Whatever happens to the page, it holds at most 15 survivors and a
    robot count between 1 and 10; the canvas is in robot mode only while no
    robot position is set; and while the controls are disabled (status idle
    or loading) there is no robot position and no survivor. *)
Theorem page_invariant (evs : list ui_event) :
  Index.page_inv (Index.ui_run json_position evs Index.initial).
Proof.
  assert (H0 : Index.page_inv (@Index.initial Pos)).
  { unfold Index.page_inv. simpl. repeat split; auto; lia. }
  revert H0. generalize (@Index.initial Pos).
  induction evs as [|e evs IH]; intros st Hst; [exact Hst|].
  rewrite ui_run_cons. apply IH. by apply ui_step_inv.
Qed.

Lemma ui_step_keeps (e : ui_event) (st : State) (p : Pos) :
  Index.is_select_map e = false ->
  Index.robotPosition st = Some p ->
  Index.robotPosition (Index.ui_step json_position e st) = Some p /\
  Index.survivors st `prefix_of`
    Index.survivors (Index.ui_step json_position e st).
Proof.
  intros He Hp. destruct st as [sm mu rc rp sv stt sf ip md].
  simpl in Hp. subst rp.
  destruct e as [name|url| |pos| | |n| | |ev|captured| ]; try discriminate;
    unfold Index.ui_step, Index.handleCanvasClick, Index.hasRobotPosition,
      Index.disabled, Index.isSimulating, Index.handleStartSimulation,
      Index.on_data; simpl.
  - done.
  - done.
  - destruct stt, md; simpl; try done;
      destruct (length sv <? 15)%nat; simpl; try done;
      (split; [done|by apply prefix_app_r]).
  - done.
  - destruct stt; simpl; try done; destruct (15 <=? length sv)%nat; done.
  - destruct stt; simpl; try done; case_bool_decide; done.
  - destruct stt; done.
  - done.
  - destruct ev as [fig|s0|msg]; simpl; try done.
    destruct (String.eqb s0 "completed"); done.
  - done.
  - done.
Qed.

(** Once the robot start position is set, nothing but selecting a map
    changes it, and survivors are only ever appended: no event of the page
    removes or moves one ([onSurvivorRemove] is bound to no control). *)
Theorem robot_and_survivors_kept (evs : list ui_event) (st : State) (p : Pos) :
  forallb (fun e => negb (Index.is_select_map e)) evs = true ->
  Index.robotPosition st = Some p ->
  Index.robotPosition (Index.ui_run json_position evs st) = Some p /\
  Index.survivors st `prefix_of`
    Index.survivors (Index.ui_run json_position evs st).
Proof.
  revert st. induction evs as [|e evs IH]; intros st Hevs Hp; [done|].
  simpl in Hevs. apply andb_true_iff in Hevs as [He Hevs].
  apply negb_true_iff in He.
  rewrite ui_run_cons.
  destruct (ui_step_keeps e st p He Hp) as [Hp' Hpre].
  destruct (IH _ Hevs Hp') as [Hp'' Hpre'].
  split; [exact Hp''|]. by etrans.
Qed.

(** Every start request the page sends is accepted by the backend: when
    [handleStartSimulation] sends a request from a state the page can
    reach, it is a valid config, so the answer is an event stream, and the
    configuration written has as many robots as the page's robot count,
    between 1 and 10, each with at most 15 goals. *)
Theorem page_start_accepted (evs : list ui_event) (req : StartRequest)
    (st' : State) (w : World) :
  Index.handleStartSimulation json_position
    (Index.ui_run json_position evs Index.initial) = (Some req, st') ->
  valid_config req = true /\
  fst (start_simulation req w) = EventStream (length (streams w)) /\
  length (robots (config (snd (start_simulation req w))))
    = Index.robotCount (Index.ui_run json_position evs Index.initial) /\
  1 <= length (robots (config (snd (start_simulation req w)))) <= 10 /\
  (forall rb, rb ∈ robots (config (snd (start_simulation req w))) ->
     length (goals rb) <= 15).
Proof.
  assert (Hinv : Index.page_inv (Index.ui_run json_position evs Index.initial)).
  { apply ui_run_inv. unfold Index.page_inv. simpl. repeat split; auto; lia. }
  destruct Hinv as (Hlen & Hcount & _ & _).
  set (st := Index.ui_run json_position evs Index.initial) in *.
  unfold Index.handleStartSimulation.
  destruct (Index.robotPosition st) as [p|] eqn:Hp; [|discriminate].
  intros [= <- _].
  destruct (update_config_built (Some (Index.selectedMap st))
              (Z.of_nat (Index.robotCount st)) (json_position p)
              (map json_position (Index.survivors st)))
    as (cfg & Hcfg & Hrobots & Hith).
  assert (Hstart : start_simulation
            (mkStart (Some (Index.selectedMap st))
               (Some (Z.of_nat (Index.robotCount st)))
               (Some (json_position p))
               (Some (map json_position (Index.survivors st)))) w
          = (EventStream (length (streams w)),
             {| config := cfg; heap := heap w ++ [new_runner];
                simulation_runner := Some (length (heap w));
                streams := streams w ++ [fresh_stream] |})).
  { unfold start_simulation. simpl. rewrite Hcfg. reflexivity. }
  rewrite Hstart. simpl. rewrite Nat2Z.id in Hrobots, Hith.
  split.
  { unfold valid_config. simpl. by destruct (Z.to_nat _). }
  split; [reflexivity|]. split; [exact Hrobots|]. split; [lia|].
  intros rb Hrb. apply list_elem_of_lookup in Hrb as [i Hi].
  assert (Hlt : i < Index.robotCount st).
  { apply lookup_lt_Some in Hi. lia. }
  rewrite (Hith i Hlt) in Hi. injection Hi as <-. simpl.
  by rewrite length_map.
Qed.

Lemma pause_click_sync (st : State) (w : World) (a : nat) (r : SimulationRunner) :
  simulation_runner w = Some a ->
  heap w !! a = Some r ->
  truthy (paused r) = Index.isPaused st ->
  simulation_runner (snd (pause_click (st, w))) = Some a /\
  Index.isPaused (fst (pause_click (st, w))) = negb (Index.isPaused st) /\
  Index.status (fst (pause_click (st, w)))
    = (if Index.isPaused st then Index.simulating else Index.paused) /\
  exists r', heap (snd (pause_click (st, w))) !! a = Some r' /\
             truthy (paused r') = negb (Index.isPaused st) /\
             stopped r' = stopped r.
Proof.
  intros Hslot Ha Hsync. unfold pause_click, pause_simulation. simpl.
  rewrite Hslot. simpl. repeat split.
  exists (set_paused (PyBool (negb (Index.isPaused st))) r).
  split; [by rewrite list_lookup_alter_eq, Ha|]. done.
Qed.

(** The pause button and the runner stay in step: after a start request
    of the page is accepted, any number of pause clicks, each served before
    the next, leaves the page paused exactly when the runner in the slot
    is, that is after an odd number of clicks, and the page's status is
    paused or simulating accordingly. *)
Theorem pause_clicks_in_sync (st st1 : State) (req : StartRequest) (w : World)
    (n : nat) :
  Index.handleStartSimulation json_position st = (Some req, st1) ->
  Index.isPaused (fst (Nat.iter n pause_click (st1, snd (start_simulation req w))))
    = Nat.odd n /\
  Index.status (fst (Nat.iter n pause_click (st1, snd (start_simulation req w))))
    = (if Nat.odd n then Index.paused else Index.simulating) /\
  exists r,
    heap (snd (Nat.iter n pause_click (st1, snd (start_simulation req w))))
      !! length (heap w) = Some r /\
    truthy (paused r) = Nat.odd n /\ stopped r = false.
Proof.
  unfold Index.handleStartSimulation.
  destruct (Index.robotPosition st) as [p|] eqn:Hp; [|discriminate].
  intros [= <- <-].
  match goal with
  | |- context [start_simulation ?rq w] =>
      assert (Hv : valid_config rq = true)
        by (unfold valid_config; simpl; by destruct (Z.to_nat _));
      destruct (valid_config_accepted rq w Hv) as [cfg ->]
  end.
  simpl snd. set (w1 := mkWorld _ _ _ _).
  set (st1 := Index.mkState _ _ _ _ _ _ _ _ _).
  assert (Hinv : forall k,
    let x := Nat.iter k pause_click (st1, w1) in
    simulation_runner (snd x) = Some (length (heap w)) /\
    Index.isPaused (fst x) = Nat.odd k /\
    Index.status (fst x) = (if Nat.odd k then Index.paused else Index.simulating) /\
    exists r, heap (snd x) !! length (heap w) = Some r /\
              truthy (paused r) = Nat.odd k /\ stopped r = false).
  { induction k as [|k IH].
    - simpl. repeat split. exists new_runner.
      split; [by rewrite lookup_app_r, Nat.sub_diag|done].
    - cbv zeta in IH |- *. rewrite Nat.iter_succ.
      destruct (Nat.iter k pause_click (st1, w1)) as [stk wk]. simpl in IH.
      destruct IH as (Hslot & Hpaused & Hstatus & r & Hr & Htruthy & Hstopped).
      assert (Hsync : truthy (paused r) = Index.isPaused stk) by congruence.
      destruct (pause_click_sync stk wk _ r Hslot Hr Hsync)
        as (Hslot' & Hpaused' & Hstatus' & r' & Hr' & Htruthy' & Hstopped').
      rewrite Nat.odd_succ, <- Nat.negb_odd.
      split; [exact Hslot'|]. split; [congruence|].
      split.
      + rewrite Hstatus', Hpaused. by destruct (Nat.odd k).
      + exists r'. split; [exact Hr'|]. split; congruence. }
  destruct (Hinv n) as (_ & H1 & H2 & H3). auto.
Qed.




Lemma onSurvivorRemove_above (k m : nat) (l : list Pos) :
  k < m ->
  omap (fun '(i, x) => if (i =? k)%nat then None else Some x)
       (zip (seq m (length l)) l) = l.
Proof.
  revert m. induction l as [|y l IH]; intros m Hm; [done|].
  simpl. destruct (Nat.eqb_spec m k); [lia|]. simpl. f_equal. apply IH. lia.
Qed.

Lemma onSurvivorRemove_from (k index : nat) (l : list Pos) :
  omap (fun '(i, x) => if (i =? k + index)%nat then None else Some x)
       (zip (seq k (length l)) l)
  = take index l ++ drop (S index) l.
Proof.
  revert k index. induction l as [|x l IH]; intros k index.
  - by destruct index.
  - destruct index as [|index].
    + rewrite Nat.add_0_r. simpl. rewrite Nat.eqb_refl. simpl.
      rewrite drop_0. apply onSurvivorRemove_above. lia.
    + replace (k + S index) with (S k + index) by lia.
      simpl. destruct (Nat.eqb_spec k (S (k + index))); [lia|]. simpl. f_equal.
      apply (IH (S k) index).
Qed.

(** [onSurvivorRemove] takes out the survivor at the given index and keeps
    the others in their order; an index past the end changes nothing. *)
Theorem onSurvivorRemove_spec (index : nat) (l : list Pos) :
  Index.onSurvivorRemove index l = take index l ++ drop (S index) l /\
  (index < length l -> S (length (Index.onSurvivorRemove index l)) = length l) /\
  (length l <= index -> Index.onSurvivorRemove index l = l).
Proof.
  assert (Heq : Index.onSurvivorRemove index l = take index l ++ drop (S index) l).
  { unfold Index.onSurvivorRemove. apply (onSurvivorRemove_from 0 index l). }
  split; [exact Heq|]. rewrite Heq. split.
  - intros Hlt. rewrite length_app, length_take, length_drop. lia.
  - intros Hge. by rewrite take_ge, drop_ge, app_nil_r by lia.
Qed.

End PageFacts.

Lemma robot_and_survivors_kept_witness :
  Index.robotPosition
    (Index.ui_run (fun p => p)
       [Index.ClickCanvas {| pos_x := 1; pos_y := 2 |}; Index.ClickStart;
        Index.StreamData (EvFrame 0); Index.StopResolved]
       placed_page)
  = Some {| pos_x := 400; pos_y := 300 |}.
Proof.
  destruct (robot_and_survivors_kept (fun p => p)
              [Index.ClickCanvas {| pos_x := 1; pos_y := 2 |}; Index.ClickStart;
               Index.StreamData (EvFrame 0); Index.StopResolved]
              placed_page {| pos_x := 400; pos_y := 300 |} eq_refl eq_refl)
    as [Hp _].
  exact Hp.
Defined.

Lemma page_start_accepted_witness :
  fst (start_simulation
         (mkStart (Some "cave.png") (Some 1%Z)
            (Some {| pos_x := 400; pos_y := 300 |})
            (Some [{| pos_x := 100; pos_y := 150 |}]))
         initial_world)
  = EventStream 0.
Proof.
  destruct (page_start_accepted (fun p => p)
              [Index.SelectMap "cave.png"; Index.MapLoaded "blob:map";
               Index.ClickCanvas {| pos_x := 400; pos_y := 300 |};
               Index.ClickCanvas {| pos_x := 100; pos_y := 150 |}]
              (mkStart (Some "cave.png") (Some 1%Z)
                 (Some {| pos_x := 400; pos_y := 300 |})
                 (Some [{| pos_x := 100; pos_y := 150 |}]))
              (snd (Index.handleStartSimulation (fun p => p) placed_page))
              initial_world eq_refl)
    as (_ & Hresp & _).
  exact Hresp.
Defined.

Lemma pause_clicks_in_sync_witness :
  Index.isPaused
    (fst (Nat.iter 3 pause_click
            (snd (Index.handleStartSimulation (fun p => p) placed_page),
             snd (start_simulation
                    (mkStart (Some "cave.png") (Some 1%Z)
                       (Some {| pos_x := 400; pos_y := 300 |})
                       (Some [{| pos_x := 100; pos_y := 150 |}]))
                    initial_world))))
  = true.
Proof.
  destruct (pause_clicks_in_sync (fun p => p) placed_page
              (snd (Index.handleStartSimulation (fun p => p) placed_page))
              (mkStart (Some "cave.png") (Some 1%Z)
                 (Some {| pos_x := 400; pos_y := 300 |})
                 (Some [{| pos_x := 100; pos_y := 150 |}]))
              initial_world 3 eq_refl)
    as (Hp & _).
  exact Hp.
Defined.


(** ** Reading the stream in chunks *)

Lemma string_app_nil_r (s : string) : s +:+ "" = s.
Proof.
  induction s as [|c s IH]; [done|].
  change (String c s +:+ "") with (String c (s +:+ "")). by rewrite IH.
Qed.

Lemma string_app_assoc (a b c : string) : (a +:+ b) +:+ c = a +:+ b +:+ c.
Proof.
  induction a as [|x a IH]; [done|].
  change (String x (((a +:+ b) +:+ c)) = String x (a +:+ b +:+ c)).
  by rewrite IH.
Qed.

Lemma split_lines_nonempty (s : string) : split_lines s <> [].
Proof.
  induction s as [|c s IH]; simpl; [done|].
  destruct (Ascii.eqb c newline); [done|]. by destruct (split_lines s).
Qed.

Lemma split_lines_app (a b : string) :
  split_lines (a +:+ b)
  = removelast (split_lines a)
    ++ split_lines (List.last (split_lines a) "" +:+ b).
Proof.
  induction a as [|c a IH]; [reflexivity|].
  pose proof (split_lines_nonempty a) as Hne.
  change (String c a +:+ b) with (String c (a +:+ b)).
  cbn [split_lines]. rewrite IH.
  destruct (split_lines a) as [|h t] eqn:Ha; [done|].
  destruct (Ascii.eqb c newline) eqn:Hc.
  - reflexivity.
  - destruct t as [|h' t'].
    + cbn [removelast List.last app].
      change (String c h +:+ b) with (String c (h +:+ b)).
      cbn [split_lines]. rewrite Hc.
      pose proof (split_lines_nonempty (h +:+ b)) as Hne'.
      by destruct (split_lines (h +:+ b)).
    + reflexivity.
Qed.

Lemma no_newline_split (s : string) :
  no_newline s = true -> split_lines s = [s].
Proof.
  induction s as [|c s IH]; simpl; [done|].
  destruct (Ascii.eqb c newline); simpl; [discriminate|].
  intros Hs. by rewrite IH.
Qed.

Lemma read_chunks_lines (chunks : list string) (buffer : string) :
  no_newline buffer = true ->
  fst (read_chunks chunks buffer) ++ [snd (read_chunks chunks buffer)]
  = split_lines (buffer +:+ String.concat "" chunks) /\
  no_newline (snd (read_chunks chunks buffer)) = true.
Proof.
  assert (Hlast : forall s, no_newline (List.last (split_lines s) "") = true).
  { intros s. induction s as [|c s IH]; [reflexivity|].
    pose proof (split_lines_nonempty s) as Hne. simpl.
    destruct (Ascii.eqb c newline) eqn:Hc.
    - destruct (split_lines s) as [|h t]; [done|]. exact IH.
    - destruct (split_lines s) as [|h t]; [done|].
      destruct t as [|h' t']; [|exact IH].
      simpl in *. by rewrite Hc, IH. }
  revert buffer. induction chunks as [|chunk rest IH]; intros buffer Hb.
  - cbn [read_chunks String.concat fst snd app].
    rewrite string_app_nil_r, (no_newline_split _ Hb). done.
  - cbn [read_chunks]. unfold read_chunk.
    specialize (IH (List.last (split_lines (buffer +:+ chunk)) "") (Hlast _)).
    destruct (read_chunks rest _) as [lines' buffer''] eqn:Hrest.
    cbn [fst snd] in IH |- *. destruct IH as [IH Hnn]. split; [|exact Hnn].
    rewrite <- app_assoc, IH.
    assert (Hcat : String.concat "" (chunk :: rest)
                   = chunk +:+ String.concat "" rest).
    { destruct rest; simpl; [by rewrite string_app_nil_r|done]. }
    rewrite Hcat, <- string_app_assoc. by rewrite <- split_lines_app.
Qed.

(** The lines the page handles do not depend on how the response is cut
    into chunks: they are the lines of the whole text, in order, but for the
    unfinished last one, which is what is left in the buffer. *)
Theorem chunking_independent (chunks : list string) :
  fst (read_chunks chunks "")
    = removelast (split_lines (String.concat "" chunks)) /\
  snd (read_chunks chunks "")
    = List.last (split_lines (String.concat "" chunks)) "".
Proof.
  destruct (read_chunks_lines chunks "" eq_refl) as [Hlines _].
  change ("" +:+ String.concat "" chunks) with (String.concat "" chunks) in Hlines.
  rewrite <- Hlines.
  by rewrite removelast_last, last_last.
Qed.

Lemma concat_cons (x : string) (l : list string) :
  String.concat "" (x :: l) = x +:+ String.concat "" l.
Proof. destruct l; simpl; [by rewrite string_app_nil_r|done]. Qed.

Lemma prefix_empty (x : string) : String.prefix "" x = true.
Proof. by destruct x. Qed.

Lemma substring_all (x : string) :
  String.substring 0 (String.length x) x = x.
Proof. induction x as [|c x IH]; simpl; [done|]. by rewrite IH. Qed.

(** A [data: ] line: the test of its prefix, and its seventh character
    on. *)
Lemma data_line (x : string) :
  String.prefix "data: " ("data: " +:+ x) = true /\
  String.substring 6 (String.length ("data: " +:+ x) - 6) ("data: " +:+ x) = x.
Proof.
  cbv [String.append]. simpl.
  by rewrite prefix_empty, Nat.sub_0_r, substring_all.
Qed.

Lemma split_lines_first (x rest : string) :
  no_newline x = true ->
  split_lines (x +:+ String newline rest) = x :: split_lines rest.
Proof.
  induction x as [|c x IH]; intros Hx.
  - change ("" +:+ String newline rest) with (String newline rest).
    cbn [split_lines]. by rewrite Ascii.eqb_refl.
  - change (String c x +:+ String newline rest)
      with (String c (x +:+ String newline rest)).
    simpl in Hx. apply andb_true_iff in Hx as [Hc Hx].
    apply negb_true_iff in Hc. cbn [split_lines]. by rewrite Hc, IH.
Qed.

Lemma no_newline_data (x : string) :
  no_newline ("data: " +:+ x) = no_newline x.
Proof. cbv [String.append]. reflexivity. Qed.

(** The lines of what the backend writes for a list of events. *)
Lemma split_lines_sse (dumps : event -> string) (evs : list event) :
  (forall ev, In ev evs -> no_newline (dumps ev) = true) ->
  split_lines (String.concat "" (map (sse_event dumps) evs))
  = flat_map (fun ev => ["data: " +:+ dumps ev; ""]) evs ++ [""].
Proof.
  induction evs as [|ev evs IH]; intros Hnn; [reflexivity|].
  cbn [map flat_map]. rewrite concat_cons. unfold sse_event at 1.
  rewrite !string_app_assoc.
  change (String newline (String newline "") +:+ ?t)
    with (String newline (String newline t)).
  rewrite <- string_app_assoc.
  rewrite split_lines_first
    by (rewrite no_newline_data; apply Hnn; by left).
  cbn [split_lines]. rewrite Ascii.eqb_refl.
  rewrite IH by (intros ev' Hin; apply Hnn; by right). reflexivity.
Qed.

Section Wire.

Context {Pos : Type}.

Local Abbreviation State := (@Index.State Pos).

Lemma handle_lines_app (parse : string -> option event)
    (l1 l2 : list string) (st : State) :
  handle_lines parse (l1 ++ l2) st
  = match handle_lines parse l1 st with
    | (st', Going) => handle_lines parse l2 st'
    | other => other
    end.
Proof.
  revert st. induction l1 as [|line l1 IH]; intros st; [reflexivity|].
  cbn [handle_lines app].
  destruct (String.prefix "data: " line); [|apply IH].
  destruct (parse _) as [ev|]; [|reflexivity].
  destruct (Index.on_data ev st) as [st' [|]]; [reflexivity|apply IH].
Qed.

(** The loop over the chunks handles the lines of all the chunks in
    order, until the handler returns or throws. *)
Lemma read_response_lines (parse : string -> option event)
    (chunks : list string) (buffer : string) (st : State) :
  read_response parse chunks buffer st
  = match handle_lines parse (fst (read_chunks chunks buffer)) st with
    | (st', Threw) => Index.set_status Index.error st'
    | (st', _) => st'
    end.
Proof.
  revert buffer st. induction chunks as [|chunk rest IH]; intros buffer st.
  - reflexivity.
  - cbn [read_response read_chunks].
    destruct (read_chunk buffer chunk) as [lines buffer'].
    specialize (IH buffer').
    destruct (read_chunks rest buffer') as [lines' buffer''].
    cbn [fst] in IH |- *. rewrite handle_lines_app.
    destruct (handle_lines parse lines st) as [st' [| |]]; [apply IH|done|done].
Qed.

Lemma handle_lines_sse (dumps : event -> string)
    (parse : string -> option event) (evs : list event) (st : State) :
  (forall ev, In ev evs -> parse (dumps ev) = Some ev) ->
  fst (handle_lines parse
         (flat_map (fun ev => ["data: " +:+ dumps ev; ""]) evs) st)
    = Index.read_stream evs st /\
  snd (handle_lines parse
         (flat_map (fun ev => ["data: " +:+ dumps ev; ""]) evs) st) <> Threw.
Proof.
  revert st. induction evs as [|ev evs IH]; intros st Hparse; [done|].
  cbn [flat_map app handle_lines Index.read_stream].
  destruct (data_line (dumps ev)) as [-> ->].
  rewrite Hparse by (by left).
  destruct (Index.on_data ev st) as [st' [|]]; [done|].
  change (String.prefix "data: " "") with false. cbv iota.
  apply IH. intros ev' Hin. apply Hparse. by right.
Qed.

(** From the backend's events to the page, through the wire: when the
    JSON text of each event has no raw newline and parses back to the
    event, the page reading the response, however it is cut into chunks,
    ends in the state it reaches by handling the events one by one, and
    nothing is left in the buffer. *)
Theorem sse_round_trip (dumps : event -> string)
    (parse : string -> option event) (evs : list event)
    (chunks : list string) (st : State) :
  (forall ev, In ev evs ->
     parse (dumps ev) = Some ev /\ no_newline (dumps ev) = true) ->
  String.concat "" chunks = String.concat "" (map (sse_event dumps) evs) ->
  read_response parse chunks "" st = Index.read_stream evs st /\
  snd (read_chunks chunks "") = "".
Proof.
  intros Hcodec Htext.
  destruct (read_chunks_lines chunks "" eq_refl) as [Hall _].
  change ("" +:+ String.concat "" chunks) with (String.concat "" chunks) in Hall.
  rewrite Htext, split_lines_sse in Hall by (intros ev Hin; by apply Hcodec).
  apply app_inj_tail in Hall as [Hlines Hbuffer].
  split; [|exact Hbuffer].
  rewrite read_response_lines, Hlines.
  destruct (handle_lines_sse dumps parse evs st) as [Hst Hout].
  { intros ev Hin. by apply Hcodec. }
  destruct (handle_lines parse _ st) as [st' [| |]]; simpl in *; done.
Qed.

End Wire.

Lemma sse_round_trip_witness :
  read_response sample_parse sample_chunks ""
    (snd (Index.handleStartSimulation (fun p => p) placed_page))
  = Index.read_stream [EvFrame 0; EvStatus "completed"]
      (snd (Index.handleStartSimulation (fun p => p) placed_page)).
Proof.
  destruct (sse_round_trip sample_dumps sample_parse
              [EvFrame 0; EvStatus "completed"] sample_chunks
              (snd (Index.handleStartSimulation (fun p => p) placed_page)))
    as [Hread _].
  - intros ev [<-|[<-|[]]]; split; reflexivity.
  - reflexivity.
  - exact Hread.
Defined.

(** ** A replaced session cannot be stopped *)

Section Replaced.

Context {E : Engine}.

Local Arguments Nat.leb : simpl never.
Local Arguments Nat.ltb : simpl never.

(** A micro-step reads the heap at the runner of its generator only, and
    the slot at its first resumption only. *)
Lemma resume_ext (slot slot' : option nat) (heap heap' : list SimulationRunner)
    (a : nat) (s : Stream) :
  runs_on a s -> heap !! a = heap' !! a ->
  resume slot heap s = resume slot' heap' s.
Proof.
  destruct s as [st l]. unfold runs_on. simpl.
  destruct st as [|g| | |m]; try contradiction; [|done|done].
  intros <- Heq. destruct g as [a n p].
  unfold resume, generate_frames_step, generate_frames_try, run_step. simpl in *.
  destruct p; try reflexivity; by rewrite Heq.
Qed.

Lemma exec_other_stream (act : action) (w : World) (i : nat) (s : Stream) :
  is_tick i act = false -> is_disconnect i act = false ->
  streams w !! i = Some s -> streams (exec act w) !! i = Some s.
Proof.
  intros Htick Hdisc Hi. destruct act as [data|data| |j|j]; simpl in *.
  - unfold start_simulation.
    destruct (update_config _ _ _ _) as [cfg|msg]; simpl; [|done].
    destruct (map_name data); simpl; [|done].
    rewrite lookup_app_l; [done|]. eapply lookup_lt_Some; eauto.
  - unfold pause_simulation. by destruct (simulation_runner w).
  - unfold stop_simulation. by destruct (simulation_runner w).
  - apply Nat.eqb_neq in Htick. unfold tick.
    destruct (streams w !! j); [|done]. by rewrite set_stream_lookup_ne.
  - apply Nat.eqb_neq in Hdisc. unfold disconnect.
    destruct (streams w !! j); [|done]. by rewrite set_stream_lookup_ne.
Qed.

(** Whatever else is scheduled, a stream on a runner out of the slot is
    where its own micro-steps take it. *)
Lemma orphan_stream_after (acts : list action) (w : World) (h0 : list SimulationRunner)
    (a i : nat) (s : Stream) :
  forallb (fun act => negb (is_disconnect i act)) acts = true ->
  a < length (heap w) -> simulation_runner w <> Some a ->
  heap w !! a = h0 !! a ->
  streams w !! i = Some s -> runs_on a s ->
  streams (run_schedule acts w) !! i
  = Some (resumes (count_ticks i acts) None h0 s).
Proof.
  revert w s. induction acts as [|act acts IH]; intros w s Hacts Ha Hslot Hh Hi Hon.
  - exact Hi.
  - simpl in Hacts. apply andb_true_iff in Hacts as [Hd Hacts].
    apply negb_true_iff in Hd.
    rewrite run_schedule_cons.
    destruct (exec_orphan act w a Ha Hslot) as (Ha' & Hslot' & Hheap').
    cbn [count_ticks].
    destruct (is_tick i act) eqn:Htick.
    + destruct act as [| | |j|]; try discriminate.
      simpl in Htick. apply Nat.eqb_eq in Htick. subst j.
      cbn [Nat.add resumes].
      rewrite (resume_ext None (simulation_runner w) h0 (heap w) a s Hon)
        by congruence.
      apply IH; try done; try congruence.
      * simpl. rewrite (tick_lookup _ _ _ Hi). by eapply set_stream_lookup.
      * by apply resume_runs_on.
    + cbn [Nat.add]. apply IH; try done; try congruence.
      by apply exec_other_stream.
Qed.

Lemma frame_iterations_from (slot : option nat) (heap : list SimulationRunner)
    (a : nat) (r : SimulationRunner) (k j : nat) (l : list event) :
  heap !! a = Some r -> stopped r = false -> truthy (paused r) = false ->
  k + j < demo_steps ->
  (forall n, n < demo_steps -> render_raises n = None /\ savefig_raises n = None) ->
  resumes (3 * j) slot heap
    {| gf := GfLoop {| self := a; step := k; pc := RunLoopHead |}; sent := l |}
  = {| gf := GfLoop {| self := a; step := k + j; pc := RunLoopHead |};
       sent := l ++ map EvFrame (seq k j) |}.
Proof.
  intros Ha Hstop Hpause. induction j as [|j IH]; intros Hk Hquiet.
  - by rewrite Nat.add_0_r, app_nil_r.
  - replace (3 * S j) with (3 * j + 3) by lia.
    rewrite resumes_add, IH; [|lia|done].
    destruct (Hquiet (k + j)) as [Hr Hs]; [lia|].
    rewrite (frame_iteration slot heap a (k + j) r _ Ha Hstop Hpause); [|lia|done|done].
    rewrite <- app_assoc, seq_S, map_app. simpl.
    by replace (k + S j) with (S (k + j)) by lia.
Qed.

(** From the loop head to the end of the run. *)
Lemma run_to_completion (slot : option nat) (heap : list SimulationRunner)
    (a : nat) (r : SimulationRunner) (k n : nat) (l : list event) :
  heap !! a = Some r -> stopped r = false -> truthy (paused r) = false ->
  k < demo_steps ->
  (forall n, n < demo_steps -> render_raises n = None /\ savefig_raises n = None) ->
  3 * (demo_steps - k) + 1 <= n ->
  resumes n slot heap
    {| gf := GfLoop {| self := a; step := k; pc := RunLoopHead |}; sent := l |}
  = {| gf := GfFinished;
       sent := l ++ map EvFrame (seq k (demo_steps - k)) ++ [EvStatus "completed"] |}.
Proof.
  intros Ha Hstop Hpause Hk Hquiet Hn. unfold demo_steps in *.
  replace n with (3 * (99 - k) + (4 + (n - (3 * (100 - k) + 1)))) by lia.
  rewrite resumes_add.
  rewrite (frame_iterations_from slot heap a r k (99 - k) l Ha Hstop Hpause);
    [|unfold demo_steps; lia|done].
  rewrite resumes_add. replace (k + (99 - k)) with 99 by lia.
  destruct (Hquiet 99) as [Hr Hs]; [lia|].
  rewrite (last_iteration slot heap a 99 r _ Ha Hstop Hpause eq_refl Hr Hs).
  rewrite resumes_finished. f_equal.
  rewrite <- !app_assoc. f_equal.
  replace (100 - k) with (S (99 - k)) by lia.
  rewrite seq_S, map_app, <- app_assoc. simpl.
  by replace (k + (99 - k)) with 99 by lia.
Qed.

Lemma completes_from (slot : option nat) (heap : list SimulationRunner)
    (r : SimulationRunner) (g : run_gen) (n : nat) :
  heap !! self g = Some r -> stopped r = false -> truthy (paused r) = false ->
  in_loop (pc g) = true ->
  pc g = RunEntry \/ step g < demo_steps ->
  (forall n, n < demo_steps -> render_raises n = None /\ savefig_raises n = None) ->
  303 <= n ->
  resumes n slot heap
    {| gf := GfLoop g; sent := map EvFrame (seq 0 (next_index g)) |}
  = {| gf := GfFinished;
       sent := map EvFrame (seq 0 100) ++ [EvStatus "completed"] |}.
Proof.
  intros Ha Hstop Hpause Hin Hstep Hquiet Hn.
  destruct g as [a k p]. unfold next_index. simpl in *.
  assert (Hjoin : forall j, j <= 100 ->
            map EvFrame (seq 0 j) ++ map EvFrame (seq j (100 - j))
              ++ [EvStatus "completed"]
            = map EvFrame (seq 0 100) ++ [EvStatus "completed"]).
  { intros j Hj. rewrite app_assoc, <- map_app. do 2 f_equal.
    replace 100 with (j + (100 - j)) at 2 by lia. by rewrite seq_app. }
  destruct p; try discriminate.
  - (* not entered yet *)
    replace n with (1 + (n - 1)) by lia. rewrite resumes_add.
    change (resumes 1 slot heap ?x) with (resume slot heap x). cbn.
    rewrite (run_to_completion slot heap a r 0 (n - 1) [] Ha Hstop Hpause);
      [|unfold demo_steps; lia|done|unfold demo_steps; lia].
    reflexivity.
  - destruct Hstep as [Hstep|Hstep]; [discriminate|].
    rewrite (run_to_completion slot heap a r k n _ Ha Hstop Hpause Hstep Hquiet);
      [|unfold demo_steps in *; lia].
    unfold demo_steps in *. by rewrite Hjoin by lia.
  - destruct Hstep as [Hstep|Hstep]; [discriminate|].
    destruct (Hquiet k Hstep) as [Hr Hs]. unfold demo_steps in Hstep.
    replace n with (2 + (n - 2)) by lia. rewrite resumes_add.
    change (resumes 2 slot heap ?x) with (resume slot heap (resume slot heap x)).
    cbn. rewrite Ha. cbn. rewrite Hpause, Hr. cbn. rewrite Hs. cbn.
    destruct (Nat.leb_spec demo_steps (S k)) as [Hle|Hlt]; unfold demo_steps in *.
    + assert (k = 99) as -> by lia. cbn.
      replace (n - 2) with (1 + (n - 3)) by lia. rewrite resumes_add.
      change (resumes 1 slot heap ?x) with (resume slot heap x). cbn.
      rewrite resumes_finished. reflexivity.
    + cbn. rewrite frames_snoc.
      rewrite (run_to_completion slot heap a r (S k) (n - 2) _ Ha Hstop Hpause);
        [|unfold demo_steps; lia|done|unfold demo_steps; lia].
      unfold demo_steps. by rewrite Hjoin by lia.
  - destruct Hstep as [Hstep|Hstep]; [discriminate|]. unfold demo_steps in Hstep.
    replace n with (1 + (n - 1)) by lia. rewrite resumes_add.
    change (resumes 1 slot heap ?x) with (resume slot heap x). cbn -[seq map].
    destruct (Nat.leb_spec demo_steps (S k)) as [Hle|Hlt]; unfold demo_steps in *.
    + assert (k = 99) as -> by lia. cbn -[seq map].
      replace (n - 1) with (1 + (n - 2)) by lia. rewrite resumes_add.
      change (resumes 1 slot heap ?x) with (resume slot heap x). cbn -[seq map].
      rewrite resumes_finished. reflexivity.
    + cbn -[seq map].
      rewrite (run_to_completion slot heap a r (S k) (n - 1) _ Ha Hstop Hpause);
        [|unfold demo_steps; lia|done|unfold demo_steps; lia].
      unfold demo_steps. by rewrite Hjoin by lia.
Qed.

(** A session whose stream had entered the loop of its generator when a
    later start request replaced it cannot be stopped any more. Its runner
    is out of the slot, and if it was neither paused nor stopped then,
    whatever requests follow, its stream delivers all its frames: once the
    stream has been given 303 micro-steps, with its consumer connected and
    the engine not raising, it is the frames of steps 0 to 99 followed by
    the completed event. *)
Theorem replaced_session_completes (acts0 acts : list action) (i : nat)
    (s : Stream) (g : run_gen) (r : SimulationRunner) :
  streams (run_schedule acts0 initial_world) !! i = Some s ->
  gf s = GfLoop g ->
  simulation_runner (run_schedule acts0 initial_world) <> Some (self g) ->
  heap (run_schedule acts0 initial_world) !! self g = Some r ->
  stopped r = false ->
  truthy (paused r) = false ->
  (forall n, n < demo_steps -> render_raises n = None /\ savefig_raises n = None) ->
  forallb (fun act => negb (is_disconnect i act)) acts = true ->
  303 <= count_ticks i acts ->
  streams (run_schedule acts (run_schedule acts0 initial_world)) !! i
  = Some {| gf := GfFinished;
            sent := map EvFrame (seq 0 100) ++ [EvStatus "completed"] |}.
Proof.
  intros Hi Hg Hslot Ha Hstop Hpause Hquiet Hacts Hn.
  set (w := run_schedule acts0 initial_world) in *.
  assert (Hshape : stream_shape s).
  { eapply run_schedule_shaped; [apply initial_world_shaped | exact Hi]. }
  assert (Hcap : capped s).
  { eapply (run_schedule_capped acts0 initial_world); [|exact Hi].
    intros j s0 Hj. discriminate. }
  destruct Hshape as (k & tl & Hsent & Hst). rewrite Hg in Hst.
  destruct Hst as [-> ->]. rewrite app_nil_r in Hsent.
  destruct Hcap as (_ & _ & Hloop). destruct (Hloop g Hg) as (Hin & _ & Hstep).
  assert (Hs : s = {| gf := GfLoop g; sent := map EvFrame (seq 0 (next_index g)) |}).
  { destruct s; simpl in *; congruence. }
  rewrite (orphan_stream_after acts w (heap w) (self g) i s Hacts);
    try done.
  - f_equal. rewrite Hs.
    by apply (completes_from None (heap w) r g).
  - apply lookup_lt_Some in Ha. exact Ha.
  - unfold runs_on. by rewrite Hg.
Qed.

End Replaced.

Lemma replaced_session_completes_witness :
  streams (run_schedule (E := quiet_engine)
             (Stop :: Pause pause_request :: ticks 0 303) replaced_world) !! 0
  = Some {| gf := GfFinished;
            sent := map EvFrame (seq 0 100) ++ [EvStatus "completed"] |}.
Proof.
  apply (replaced_session_completes (E := quiet_engine)
           [Start demo_request; Tick 0; Start demo_request]
           (Stop :: Pause pause_request :: ticks 0 303) 0
           {| gf := GfLoop {| self := 0; step := 0; pc := RunEntry |}; sent := [] |}
           {| self := 0; step := 0; pc := RunEntry |} new_runner);
    try reflexivity; try discriminate;
    try (intros n _; split; reflexivity); try (vm_compute; lia).
Defined.

Section ReplacedPaused.

Context {E : Engine}.


End ReplacedPaused.

